(** * pypmc: adaptive Markov chain and PMC update

  A shallow embedding of [pypmc/mcprerun/markov_chain.py] and of the
  parts of the library that its tests exercise.  Python floats are IEEE
  binary64 numbers and are modelled by Rocq's primitive floats; Python
  exceptions are modelled by a result type, and an object's attributes
  by a record that is threaded through every method, so that the state
  an exception leaves behind stays observable. *)

From Stdlib Require Import ZArith Lia PrimFloat Uint63.
From stdpp Require Import base option list strings gmap fin_maps.

Set Warnings "-inexact-float".
Local Open Scope float_scope.

(** ** Python values, exceptions and the method monad *)

Module Py.

(** The exceptions the modelled code raises.  The payload is the
    message, or for [TypeError] on unexpected keywords the keys left
    over in [kwargs]. *)
Inductive exn : Type :=
| ValueError (msg : string)
| TypeError (msg : string)
| UnexpectedKeywords (keys : list string)
| AttributeError (attr : string)
| IndexError
| ZeroDivisionError
| AssertionError (msg : string)
| OtherError (msg : string).

Inductive res (A : Type) : Type :=
| Ok (a : A)
| Raise (e : exn).
Arguments Ok {A} a.
Arguments Raise {A} e.

(** A method of an object whose attributes have type [S]: it returns
    a value or raises, and in both cases leaves an updated object. *)
Definition M (S A : Type) : Type := S -> res A * S.

Definition ret {S A} (a : A) : M S A := fun s => (Ok a, s).
Definition raise {S A} (e : exn) : M S A := fun s => (Raise e, s).
Definition bind {S A B} (m : M S A) (k : A -> M S B) : M S B :=
  fun s => match m s with
           | (Ok a, s') => k a s'
           | (Raise e, s') => (Raise e, s')
           end.
Definition get {S} : M S S := fun s => (Ok s, s).
Definition gets {S A} (f : S -> A) : M S A := fun s => (Ok (f s), s).
Definition modify {S} (f : S -> S) : M S unit := fun s => (Ok tt, f s).
Definition lift {S A} (r : res A) : M S A := fun s => (r, s).

Definition is_ok {A} (r : res A) : bool :=
  match r with Ok _ => true | Raise _ => false end.

(** Python's [x / y] on floats raises on a zero divisor (of either
    sign) instead of returning an infinity or a NaN. *)
Definition truediv (x y : float) : res float :=
  if y =? 0 then Raise ZeroDivisionError else Ok (x / y).

(** [float(n)] for a non-negative integer below [2^63]. *)
Definition float_of_nat (n : nat) : float :=
  PrimFloat.of_uint63 (Uint63.of_Z (Z.of_nat n)).

(** Running a list of fallible computations in order, stopping at the
    first exception. *)
Fixpoint res_mapM {A B} (f : A -> res B) (l : list A) : res (list B) :=
  match l with
  | [] => Ok []
  | x :: l' =>
      match f x with
      | Raise e => Raise e
      | Ok y => match res_mapM f l' with
                | Raise e => Raise e
                | Ok ys => Ok (y :: ys)
                end
      end
  end.

End Py.

Import Py.

#[global] Instance M_ret {S} : MRet (M S) := fun A a => ret a.
#[global] Instance M_bind {S} : MBind (M S) := fun A B k m => bind m k.

(** ** Arrays

    A point is a vector of floats, a matrix a list of rows.  Arithmetic
    between arrays follows numpy: operands of equal length are combined
    element by element, an operand of length one is stretched, and any
    other pair of lengths raises. *)

Module Numpy.

Abbreviation vector := (list float).
Abbreviation matrix := (list (list float)).

Definition broadcast {A} (f : A -> A -> res A) (xs ys : list A) : res (list A) :=
if decide (length xs = length ys)
then res_mapM (fun xy => f (fst xy) (snd xy)) (zip xs ys)
else match xs, ys with
     | [x], _ => res_mapM (f x) ys
     | _, [y] => res_mapM (fun x => f x y) xs
     | _, _ => Raise (ValueError "operands could not be broadcast together")
     end.

(** [a * m] for a scalar [a]. *)
Definition mat_scale (a : float) (m : matrix) : matrix :=
map (map (fun x => a * x)) m.

(** [m / a] for a scalar [a]; numpy returns infinities and NaN rather
    than raising. *)
Definition mat_div (m : matrix) (a : float) : matrix :=
map (map (fun x => x / a)) m.

(** [m1 + m2]. *)
Definition mat_add (m1 m2 : matrix) : res matrix :=
broadcast (broadcast (fun x y => Ok (x + y))) m1 m2.

(** Two matrices with the same number of rows and, row by row, the same
    number of columns. *)
Definition same_shape (m1 m2 : matrix) : Prop :=
Forall2 (fun r1 r2 : vector => length r1 = length r2) m1 m2.

(** The damped update as the specification words it, entry by entry:
    [(1 - a) * prior + a * estimate]. *)
Definition damped_update (a : float) (prior estimate : matrix) : matrix :=
zip_with (zip_with (fun x y => (1 - a) * x + a * y)) prior estimate.

(** The numeric functions the code imports and does not define: the
    natural logarithm, the exponential, the covariance estimate
    [cov(points, rowvar=0)], Python's [int ** float], and the contents of
    a cell of [numpy.empty]. *)
Record lib : Type := mk_lib {
  np_log : float -> float;
  np_exp : float -> float;
  np_cov : list vector -> matrix;
  py_pow : nat -> float -> res float;
  uninit : float
}.

(** [numpy.empty((N, d))]. *)
Definition np_empty (np : lib) (N d : nat) : list vector :=
replicate N (replicate d (uninit np)).

End Numpy.

Import Numpy.

(** ** The history buffer *)

Module History.

(** Modelled from the spec: the history buffer of [_tools/_chain.py]
    (section 4.1), which is not part of the sources at hand.  It is an
    append-only sequence of runs; each run is a matrix of rows together
    with its count (the accept count of a chain, the sample count of an
    importance sampler). *)
Record run_data : Type := mk_run {
  run_points : list vector;
  run_count : nat
}.

Definition t : Type := list run_data.

Definition empty : t := [].

(** Modelled from the spec: [append(run_matrix, metadata)] stores a new
    run and its count. *)
Definition append (h : t) (points : list vector) (count : nat) : t :=
h ++ [mk_run points count].

(** Modelled from the spec: [get_run_points()] returns the rows of the
    most recently appended run and raises when no run exists yet. *)
Definition get_run_points (h : t) : res (list vector) :=
match last h with
| Some r => Ok (run_points r)
| None => Raise IndexError
end.

(** Modelled from the spec: [get_run_accept_count()], the count of the
    most recently appended run. *)
Definition get_run_accept_count (h : t) : res nat :=
match last h with
| Some r => Ok (run_count r)
| None => Raise IndexError
end.

(** Modelled from the spec: the full-history accessor returns the total
    row count and the rows of all runs in append order. *)
Definition all_rows (h : t) : list vector := concat (map run_points h).
Definition total (h : t) : nat := length (all_rows h).

(** Modelled from the spec: [clear()] drops all runs and resets the
    counters. *)
Definition clear (h : t) : t := [].

End History.

(** ** The Markov chain of [mcprerun/markov_chain.py] *)

Module MarkovChain.

Section Chain.

(** [R] is the state of the random generator [self.rng]. *)
Context {R : Type}.
Variable np : Numpy.lib.

(** [rng.rand()]: a uniform draw from [0,1) and the generator's next
    state. *)
Variable rand : R -> float * R.

(** What lies outside the chain object: the generator, and the points
    at which the user's target density has been evaluated so far. *)
Record World : Type := mk_world {
  rng : R;
  target_calls : list vector
}.

(** The proposal density, an external collaborator: [propose(current,
    rng)] draws from the generator, [evaluate(x, y)] is a log-density,
    [symmetric] is the attribute the hint of the class docstring
    describes, [sigma] the covariance that [update_sigma] replaces. *)
Record ProposalDensity : Type := mk_proposal {
  symmetric : bool;
  propose : vector -> R -> vector * R;
  evaluate : vector -> vector -> float;
  sigma : matrix
}.

(** [proposal.update_sigma(m)]: the hook of the external proposal,
    modelled as storing the new covariance. *)
Definition update_sigma (m : matrix) (p : ProposalDensity) : ProposalDensity :=
  mk_proposal (symmetric p) (propose p) (evaluate p) m.

(** The attributes of a [MarkovChain] instance.  [points] is an
    attribute this class never assigns; it is [None] when the base class
    does not provide it. *)
Record t : Type := mk_chain {
  current : vector;
  hist : History.t;
  points : option (list vector);
  proposal : ProposalDensity;
  world : World;
  target : vector -> M World float
}.

Definition set_current (x : vector) (self : t) : t :=
  mk_chain x (hist self) (points self) (proposal self) (world self) (target self).
Definition set_hist (h : History.t) (self : t) : t :=
  mk_chain (current self) h (points self) (proposal self) (world self) (target self).
Definition set_proposal (p : ProposalDensity) (self : t) : t :=
  mk_chain (current self) (hist self) (points self) p (world self) (target self).
Definition set_world (w : World) (self : t) : t :=
  mk_chain (current self) (hist self) (points self) (proposal self) w (target self).
Definition set_target (f : vector -> M World float) (self : t) : t :=
  mk_chain (current self) (hist self) (points self) (proposal self) (world self) f.

(** A call that only touches the world, made from a method. *)
Definition in_world {A} (m : M World A) : M t A :=
  fun self => let (r, w) := m (world self) in (r, set_world w self).

(** The user's target density as a callable: evaluating it at [x]
    returns [f x] (or raises) and is recorded in the world. *)
Definition observed (f : vector -> res float) : vector -> M World float :=
  fun x w => (f x, mk_world (rng w) (target_calls w ++ [x])).

(** [MarkovChain._merge_target_with_indicator]: the value it assigns to
    [self.target]. *)
Definition _merge_target_with_indicator
    (target : vector -> M World float) (indicator : option (vector -> bool))
    : vector -> M World float :=
  match indicator with
  | None => target
  | Some indicator =>
      let merged_target x :=
        if indicator x then target x else mret 0
      in merged_target
  end.

(** [MarkovChain.__init__].  The base class constructor, which is not
    part of the sources at hand, receives [start]; [base_hist] and
    [base_points] stand for the history and the [points] attribute it
    sets up. *)
Definition __init__ (base_hist : History.t) (base_points : option (list vector))
    (target : vector -> M World float) (proposal : ProposalDensity)
    (start : vector) (indicator : option (vector -> bool)) (rng : R) : t :=
  mk_chain start base_hist base_points proposal (mk_world rng [])
           (_merge_target_with_indicator target indicator).

(** [MarkovChain._get_log_rho_metropolis]. *)
Definition _get_log_rho_metropolis (proposed_point : vector) : M t float :=
  self ← get;
  a ← in_world (target self proposed_point);
  self ← get;
  b ← in_world (target self (current self));
  mret (a - b).

(** Calling the bound method [self._get_log_rho_metropolis] with the
    given positional arguments: it has one parameter besides [self]. *)
Definition call__get_log_rho_metropolis (args : list vector) : M t float :=
  match args with
  | [proposed_point] => _get_log_rho_metropolis proposed_point
  | _ => raise (TypeError "_get_log_rho_metropolis() takes 2 positional arguments")
  end.

(** The expression [self.points[-1]]. *)
Definition points_last : M t vector :=
  self ← get;
  match points self with
  | None => raise (AttributeError "points")
  | Some ps =>
      match last ps with
      | None => raise IndexError
      | Some p => mret p
      end
  end.

(** [MarkovChain._get_log_rho_metropolis_hasting]; the arguments of each
    call are evaluated before the call is made. *)
Definition _get_log_rho_metropolis_hasting (proposed_point : vector) : M t float :=
  p1 ← points_last;
  m ← call__get_log_rho_metropolis [proposed_point; p1];
  p2 ← points_last;
  self ← get;
  let e1 := evaluate (proposal self) proposed_point p2 in
  p3 ← points_last;
  self ← get;
  let e2 := evaluate (proposal self) p3 proposed_point in
  mret (m - e1 + e2).

(** The local variables of [run]. *)
Record locals : Type := mk_locals {
  this_run : list vector;
  accept_count : nat
}.

(** The function [run] binds to [get_log_rho]. *)
Definition select_log_rho (self : t) : vector -> M t float :=
  if symmetric (proposal self)
  then _get_log_rho_metropolis
  else _get_log_rho_metropolis_hasting.

(** One iteration of the loop of [run], at index [i_N]. *)
Definition run_body (get_log_rho : vector -> M t float)
    (i_N : nat) (l : locals) : M t locals :=
  self ← get;
  proposed_point ← in_world (fun w =>
    let (x, r) := propose (proposal self) (current self) (rng w) in
    (Ok x, mk_world r (target_calls w)));
  log_rho ← get_log_rho proposed_point;
  if is_nan log_rho then raise (ValueError "encountered NaN")
  else if 0 <=? log_rho then
    modify (set_current proposed_point);;
    mret (mk_locals (<[i_N := proposed_point]> (this_run l)) (S (accept_count l)))
  else
    self ← get;
    u ← in_world (fun w =>
      let (u, r) := rand (rng w) in
      (Ok u, mk_world r (target_calls w)));
    if np_log np u <=? log_rho then
      modify (set_current proposed_point);;
      mret (mk_locals (<[i_N := proposed_point]> (this_run l)) (S (accept_count l)))
    else
      self ← get;
      mret (mk_locals (<[i_N := current self]> (this_run l)) (accept_count l)).

(** [for i_N in range(i_N, i_N + n)]. *)
Fixpoint run_loop (get_log_rho : vector -> M t float)
    (n i_N : nat) (l : locals) : M t locals :=
  match n with
  | 0 => mret l
  | S n' => l' ← run_body get_log_rho i_N l; run_loop get_log_rho n' (S i_N) l'
  end.

(** [MarkovChain.run]. *)
Definition run (N : nat) : M t unit :=
  self ← get;
  let get_log_rho := select_log_rho self in
  let l0 := mk_locals (np_empty np N (length (current self))) 0 in
  l ← run_loop get_log_rho N 0 l0;
  modify (fun self =>
    set_hist (History.append (hist self) (this_run l) (accept_count l)) self).

End Chain.

End MarkovChain.

(** ** The adaptive Markov chain *)

Module AdaptiveMarkovChain.

Section Adaptive.

Context {R : Type}.
Variable np : Numpy.lib.

(** The attributes of an [AdaptiveMarkovChain] instance: those of the
    base class and the adaptation parameters. *)
Record t : Type := mk_adaptive {
  chain : MarkovChain.t (R := R);
  adapt_count : nat;
  covar_scale_multiplier : float;
  covar_scale_factor : float;
  covar_scale_factor_max : float;
  covar_scale_factor_min : float;
  force_acceptance_max : float;
  force_acceptance_min : float;
  damping : float;
  unscaled_sigma : matrix
}.

Definition set_chain (c : MarkovChain.t) (s : t) : t :=
  mk_adaptive c (adapt_count s) (covar_scale_multiplier s) (covar_scale_factor s)
    (covar_scale_factor_max s) (covar_scale_factor_min s) (force_acceptance_max s)
    (force_acceptance_min s) (damping s) (unscaled_sigma s).
Definition set_adapt_count (n : nat) (s : t) : t :=
  mk_adaptive (chain s) n (covar_scale_multiplier s) (covar_scale_factor s)
    (covar_scale_factor_max s) (covar_scale_factor_min s) (force_acceptance_max s)
    (force_acceptance_min s) (damping s) (unscaled_sigma s).
Definition set_covar_scale_multiplier (v : float) (s : t) : t :=
  mk_adaptive (chain s) (adapt_count s) v (covar_scale_factor s)
    (covar_scale_factor_max s) (covar_scale_factor_min s) (force_acceptance_max s)
    (force_acceptance_min s) (damping s) (unscaled_sigma s).
Definition set_covar_scale_factor (v : float) (s : t) : t :=
  mk_adaptive (chain s) (adapt_count s) (covar_scale_multiplier s) v
    (covar_scale_factor_max s) (covar_scale_factor_min s) (force_acceptance_max s)
    (force_acceptance_min s) (damping s) (unscaled_sigma s).
Definition set_covar_scale_factor_max (v : float) (s : t) : t :=
  mk_adaptive (chain s) (adapt_count s) (covar_scale_multiplier s) (covar_scale_factor s)
    v (covar_scale_factor_min s) (force_acceptance_max s)
    (force_acceptance_min s) (damping s) (unscaled_sigma s).
Definition set_covar_scale_factor_min (v : float) (s : t) : t :=
  mk_adaptive (chain s) (adapt_count s) (covar_scale_multiplier s) (covar_scale_factor s)
    (covar_scale_factor_max s) v (force_acceptance_max s)
    (force_acceptance_min s) (damping s) (unscaled_sigma s).
Definition set_force_acceptance_max (v : float) (s : t) : t :=
  mk_adaptive (chain s) (adapt_count s) (covar_scale_multiplier s) (covar_scale_factor s)
    (covar_scale_factor_max s) (covar_scale_factor_min s) v
    (force_acceptance_min s) (damping s) (unscaled_sigma s).
Definition set_force_acceptance_min (v : float) (s : t) : t :=
  mk_adaptive (chain s) (adapt_count s) (covar_scale_multiplier s) (covar_scale_factor s)
    (covar_scale_factor_max s) (covar_scale_factor_min s) (force_acceptance_max s)
    v (damping s) (unscaled_sigma s).
Definition set_damping (v : float) (s : t) : t :=
  mk_adaptive (chain s) (adapt_count s) (covar_scale_multiplier s) (covar_scale_factor s)
    (covar_scale_factor_max s) (covar_scale_factor_min s) (force_acceptance_max s)
    (force_acceptance_min s) v (unscaled_sigma s).
Definition set_unscaled_sigma (m : matrix) (s : t) : t :=
  mk_adaptive (chain s) (adapt_count s) (covar_scale_multiplier s) (covar_scale_factor s)
    (covar_scale_factor_max s) (covar_scale_factor_min s) (force_acceptance_max s)
    (force_acceptance_min s) (damping s) m.

(** [kwargs.pop(key, default)] on a dictionary of keyword arguments. *)
Definition pop (key : string) (default : float) (kwargs : gmap string float)
    : float * gmap string float :=
  match kwargs !! key with
  | Some v => (v, delete key kwargs)
  | None => (default, kwargs)
  end.

(** The keywords [__init__] and [set_adapt_params] pop, in the order of
    the source. *)
Definition adapt_keywords : list string :=
  ["covar_scale_multiplier"; "covar_scale_factor"; "covar_scale_factor_max";
   "covar_scale_factor_min"; "force_acceptance_max"; "force_acceptance_min";
   "damping"].

(** [str(kwargs.keys())] as Python 3 prints it, for instance
    [dict_keys(['bogus'])]; the keys come in the order of the map. *)
Definition str_keys (kwargs : gmap string float) : string :=
  "dict_keys(["
  +:+ String.concat ", " (map (fun k => "'" +:+ k +:+ "'") (map fst (map_to_list kwargs)))
  +:+ "])".

(** [AdaptiveMarkovChain.__init__]: [base] is the object the base class
    constructor builds from the positional arguments; [kwargs] holds the
    keyword arguments that are not parameters of the base class, which
    rejects whatever is left of them. *)
Definition __init__ (base : MarkovChain.t) (kwargs : gmap string float) : res t :=
  let adapt_count := 0%nat in
  let '(covar_scale_multiplier, kwargs) := pop "covar_scale_multiplier" 1.5 kwargs in
  let '(covar_scale_factor, kwargs) := pop "covar_scale_factor" 1 kwargs in
  let '(covar_scale_factor_max, kwargs) := pop "covar_scale_factor_max" 100 kwargs in
  let '(covar_scale_factor_min, kwargs) := pop "covar_scale_factor_min" 0.0001 kwargs in
  let '(force_acceptance_max, kwargs) := pop "force_acceptance_max" 0.35 kwargs in
  let '(force_acceptance_min, kwargs) := pop "force_acceptance_min" 0.15 kwargs in
  let '(damping, kwargs) := pop "damping" 0.5 kwargs in
  if decide (kwargs = ∅) then
    Ok (mk_adaptive base adapt_count covar_scale_multiplier covar_scale_factor
          covar_scale_factor_max covar_scale_factor_min force_acceptance_max
          force_acceptance_min damping
          (mat_div (MarkovChain.sigma (MarkovChain.proposal base)) covar_scale_factor))
  else Raise (TypeError "__init__() got an unexpected keyword argument").

(** [AdaptiveMarkovChain.set_adapt_params]. *)
Definition set_adapt_params (args : list float) (kwargs : gmap string float) : M t unit :=
  if negb (bool_decide (args = []))
  then raise (TypeError "keyword args only; try set_adapt_parameters(keyword = value)")
  else
  self ← get;
  let '(v, kwargs) := pop "covar_scale_multiplier" (covar_scale_multiplier self) kwargs in
  modify (set_covar_scale_multiplier v);;
  self ← get;
  let '(v, kwargs) := pop "covar_scale_factor" (covar_scale_factor self) kwargs in
  modify (set_covar_scale_factor v);;
  self ← get;
  let '(v, kwargs) := pop "covar_scale_factor_max" (covar_scale_factor_max self) kwargs in
  modify (set_covar_scale_factor_max v);;
  self ← get;
  let '(v, kwargs) := pop "covar_scale_factor_min" (covar_scale_factor_min self) kwargs in
  modify (set_covar_scale_factor_min v);;
  self ← get;
  let '(v, kwargs) := pop "force_acceptance_max" (force_acceptance_max self) kwargs in
  modify (set_force_acceptance_max v);;
  self ← get;
  let '(v, kwargs) := pop "force_acceptance_min" (force_acceptance_min self) kwargs in
  modify (set_force_acceptance_min v);;
  self ← get;
  let '(v, kwargs) := pop "damping" (damping self) kwargs in
  modify (set_damping v);;
  if negb (bool_decide (kwargs = ∅))
  then raise (TypeError ("unexpected keyword(s): " +:+ str_keys kwargs))
  else mret tt.

(** [AdaptiveMarkovChain._update_scale_factor]. *)
Definition _update_scale_factor (accept_rate : float) : M t unit :=
  self ← get;
  if (force_acceptance_max self <? accept_rate)
     && (covar_scale_factor self <? covar_scale_factor_max self)
  then modify (set_covar_scale_factor
                 (covar_scale_factor self * covar_scale_multiplier self))
  else if (accept_rate <? force_acceptance_min self)
          && (covar_scale_factor_min self <? covar_scale_factor self)
  then v ← lift (truediv (covar_scale_factor self) (covar_scale_multiplier self));
       modify (set_covar_scale_factor v)
  else mret tt.

(** [AdaptiveMarkovChain.adapt]. *)
Definition adapt : M t unit :=
  modify (fun self => set_adapt_count (S (adapt_count self)) self);;
  self ← get;
  p ← lift (py_pow np (adapt_count self) (damping self));
  time_dependent_damping_factor ← lift (truediv 1 p);
  self ← get;
  last_run ← lift (History.get_run_points (MarkovChain.hist (chain self)));
  self ← get;
  n ← lift (History.get_run_accept_count (MarkovChain.hist (chain self)));
  accept_rate ← lift (truediv (float_of_nat n) (float_of_nat (length last_run)));
  let covar_estimator := np_cov np last_run in
  self ← get;
  new_sigma ← lift (mat_add
    (mat_scale (1 - time_dependent_damping_factor) (unscaled_sigma self))
    (mat_scale time_dependent_damping_factor covar_estimator));
  modify (set_unscaled_sigma new_sigma);;
  _update_scale_factor accept_rate;;
  self ← get;
  modify (fun self =>
    set_chain (MarkovChain.set_proposal
      (MarkovChain.update_sigma
         (mat_scale (covar_scale_factor self) (unscaled_sigma self))
         (MarkovChain.proposal (chain self)))
      (chain self)) self).

(** The object [self] with every adaptation parameter that [kwargs]
    names set to the given value, and nothing else changed. *)
Definition assign_params (kwargs : gmap string float) (self : t) : t :=
  mk_adaptive (chain self) (adapt_count self)
    (default (covar_scale_multiplier self) (kwargs !! "covar_scale_multiplier"))
    (default (covar_scale_factor self) (kwargs !! "covar_scale_factor"))
    (default (covar_scale_factor_max self) (kwargs !! "covar_scale_factor_max"))
    (default (covar_scale_factor_min self) (kwargs !! "covar_scale_factor_min"))
    (default (force_acceptance_max self) (kwargs !! "force_acceptance_max"))
    (default (force_acceptance_min self) (kwargs !! "force_acceptance_min"))
    (default (damping self) (kwargs !! "damping"))
    (unscaled_sigma self).

(** Every keyword of [kwargs] is an adaptation parameter. *)
Definition all_recognized (kwargs : gmap string float) : Prop :=
  ∀ k, is_Some (kwargs !! k) → k ∈ adapt_keywords.

(** A method of the base class called on the adaptive chain. *)
Definition inherited {A} (m : M MarkovChain.t A) : M t A :=
  fun self => let (r, c) := m (chain self) in (r, set_chain c self).

End Adaptive.

End AdaptiveMarkovChain.

(** ** The PMC mixture update *)

Module PMC.

(** Python objects live in a store, so that what a call does to the
    objects it was given can be stated. *)
Abbreviation loc := nat (only parsing).

Inductive obj : Type :=
| Component (mu : vector) (sigma : matrix)
| Mixture (components : list loc) (weights : vector).

Abbreviation heap := (gmap nat obj) (only parsing).

(** Creating an object: it is stored at an address not in use. *)
Definition alloc (o : obj) : M heap loc :=
  fun h => let l := fresh (dom h) in (Ok l, <[l := o]> h).

Definition read_component (l : loc) : M heap (vector * matrix) :=
  fun h => match h !! l with
           | Some (Component mu sigma) => (Ok (mu, sigma), h)
           | _ => (Raise (AttributeError "mu"), h)
           end.

Definition read_mixture (l : loc) : M heap (list loc * vector) :=
  fun h => match h !! l with
           | Some (Mixture cs ws) => (Ok (cs, ws), h)
           | _ => (Raise (AttributeError "components"), h)
           end.

(** [m1; m2; ...]: run the computations in order. *)
Fixpoint mapM {S A B} (f : A -> M S B) (l : list A) : M S (list B) :=
  match l with
  | [] => mret []
  | x :: l' => y ← f x; ys ← mapM f l'; mret (y :: ys)
  end.

Definition vadd (x y : vector) : vector := zip_with PrimFloat.add x y.
Definition vsub (x y : vector) : vector := zip_with PrimFloat.sub x y.
Definition vscale (a : float) (x : vector) : vector := map (PrimFloat.mul a) x.
Definition vsum (d : nat) (xs : list vector) : vector :=
  foldl vadd (replicate d 0) xs.
Definition fsum (xs : list float) : float := foldl PrimFloat.add 0 xs.
Definition outer (x y : vector) : matrix := map (fun a => vscale a y) x.
Definition madd (a b : matrix) : matrix := zip_with vadd a b.
Definition msum (d : nat) (ms : list matrix) : matrix :=
  foldl madd (replicate d (replicate d 0)) ms.

Section Update.

(** The density of a component with the given mean and covariance at a
    point: the external proposal abstraction. *)
Variable density : vector -> matrix -> vector -> float.

(** Modelled from the spec: the responsibility of component [k] for the
    sample [x] with index [i] (section 4.6).  With [rb] it is the
    component weight times the component density over the total mixture
    density; without, it is 1 if [latent[i] == k] and 0 otherwise. *)
Definition responsibility (rb : bool) (comps : list (vector * matrix))
    (ws : vector) (latent : option (list nat)) (k i : nat) (x : vector) : float :=
  if rb then
    let terms := zip_with (fun w c => w * density (fst c) (snd c) x) ws comps in
    default 0 (terms !! k) / fsum terms
  else
    match latent with
    | Some lat => if decide (lat !! i = Some k) then 1 else 0
    | None => 0
    end.

(** Modelled from the spec: the hard-label count of component [k]. *)
Definition hard_count (latent : list nat) (k : nat) : nat :=
  length (filter (fun l => l = k) latent).

(** Modelled from the spec: a component is pruned when its hard-label
    count is below [mincount]. *)
Definition pruned (latent : option (list nat)) (mincount k : nat) : bool :=
  match latent with
  | Some lat => bool_decide (hard_count lat k < mincount)%nat
  | None => false
  end.

(** Modelled from the spec: the effective count, mean and covariance of
    component [k] estimated from the weighted samples. *)
Definition estimate (rb : bool) (comps : list (vector * matrix)) (ws : vector)
    (latent : option (list nat)) (samples : list vector) (weights : vector)
    (k : nat) : float * vector * matrix :=
  let d := length (default [] (fst <$> comps !! k)) in
  let rho := imap (fun i xw =>
               (snd xw * responsibility rb comps ws latent k i (fst xw), fst xw))
               (zip samples weights) in
  let N_k := fsum (map fst rho) in
  let mu_k := map (fun s => s / N_k) (vsum d (map (fun r => vscale (fst r) (snd r)) rho)) in
  let sigma_k :=
    map (map (fun s => s / N_k))
        (msum d (map (fun r => map (vscale (fst r))
                                   (outer (vsub (snd r) mu_k) (vsub (snd r) mu_k))) rho)) in
  (N_k, mu_k, sigma_k).

(** Modelled from the spec: whether an estimate cannot be used for a
    component.  The specification names a covariance from fewer than two
    points as undefined, and [test_invalid_cov] expects a component with
    a single hard-assigned sample to get weight 0; which estimates the
    library rejects beyond that is not stated, so the test is a parameter
    of the model. *)
Variable unusable : float * vector * matrix -> bool.

(** Modelled from the spec: the M-step over all components (section
    4.6).  A pruned component keeps its prior mean and covariance and
    gets weight 0, and so does one whose estimate cannot be used; the
    weights of the others are their effective counts normalized over the
    surviving components. *)
Definition m_step (samples : list vector) (comps : list (vector * matrix))
    (ws : vector) (weights : vector) (latent : option (list nat))
    (rb : bool) (mincount : nat) : list (vector * matrix) * vector :=
  let est := estimate rb comps ws latent samples weights in
  let dead k := pruned latent mincount k || unusable (est k) in
  let live_total :=
    fsum (map (fun k => if dead k then 0 else fst (fst (est k)))
              (seq 0 (length comps))) in
  (imap (fun k prior => if dead k then prior else (snd (fst (est k)), snd (est k)))
        comps,
   map (fun k => if dead k then 0 else fst (fst (est k)) / live_total)
       (seq 0 (length comps))).

(** Modelled from the spec: [gaussian_pmc], the function under test in
    [mix_adapt/pmc_test.py], whose definition is not part of the sources
    at hand (section 4.6).  The validation comes first and nothing is
    computed when it fails; the input mixture is only read; the result is
    a new mixture object made of new component objects. *)
Definition gaussian_pmc (samples : list vector) (proposal : loc)
    (weights : option vector) (latent : option (list nat))
    (rb : bool) (mincount : nat) : M heap loc :=
  if negb rb && negb (bool_decide (is_Some latent))
  then raise (ValueError "`rb` must be True if `latent` is not provided")
  else if bool_decide (0 < mincount)%nat && negb (bool_decide (is_Some latent))
  then raise (ValueError "`mincount` must be 0 if `latent` is not provided")
  else
  '(cs, ws) ← read_mixture proposal;
  comps ← mapM read_component cs;
  let weights := default (replicate (length samples) 1) weights in
  let (new_params, new_weights) :=
    m_step samples comps ws weights latent rb mincount in
  new_cs ← mapM alloc (map (fun c => Component (fst c) (snd c)) new_params);
  alloc (Mixture new_cs new_weights).

(** A call the validation lets through, on a store that holds the
    mixture and its components. *)
Definition valid_call (h : heap) (proposal : loc) (latent : option (list nat))
    (rb : bool) (mincount : nat) : Prop :=
  (rb = true ∨ is_Some latent)
  ∧ (mincount = 0%nat ∨ is_Some latent)
  ∧ ∃ cs ws, h !! proposal = Some (Mixture cs ws)
             ∧ Forall (fun c => ∃ mu sigma, h !! c = Some (Component mu sigma)) cs.

End Update.

End PMC.

(** ** The chain as section 4.2 of the specification words it *)

Module MetropolisSpec.

Import MarkovChain.

Section Spec.

Context {R : Type}.
Variable np : Numpy.lib.
Variable rand : R -> float * R.

Local Abbreviation chain := (MarkovChain.t (R := R)).
Local Abbreviation world_t := (MarkovChain.World (R := R)).

(** One transition: propose, compute the log-ratio, fail on NaN, accept
    unconditionally when it is non-negative, otherwise accept when it is
    at least the logarithm of a uniform draw.  The result tells whether
    the move was accepted; [current] is the new point or the retained
    one. *)
Definition transition (get_log_rho : vector -> M chain float) : M chain bool :=
  self ← get;
  let (x, r) := propose (proposal self) (current self) (rng (world self)) in
  modify (set_world (mk_world r (target_calls (world self))));;
  log_rho ← get_log_rho x;
  if is_nan log_rho then raise (ValueError "encountered NaN")
  else if 0 <=? log_rho then modify (set_current x);; mret true
  else
    self ← get;
    let (u, r) := rand (rng (world self)) in
    modify (set_world (mk_world r (target_calls (world self))));;
    if np_log np u <=? log_rho then modify (set_current x);; mret true
    else mret false.

(** The trajectory of [N] transitions: for each of them, whether the
    move was accepted, and the point the chain is at afterwards. *)
Fixpoint trajectory (get_log_rho : vector -> M chain float) (N : nat)
    : M chain (list (bool * vector)) :=
  match N with
  | 0 => mret []
  | S n =>
      a ← transition get_log_rho;
      self ← get;
      rest ← trajectory get_log_rho n;
      mret ((a, current self) :: rest)
  end.

Definition accepted_moves (tr : list (bool * vector)) : nat :=
  length (filter (fun o => fst o = true) tr).

(** The log-ratio of the next proposal: the value [run] computes at the
    start of an iteration. *)
Definition next_log_rho (get_log_rho : vector -> M chain float) : M chain float :=
  self ← get;
  let (x, r) := propose (proposal self) (current self) (rng (world self)) in
  modify (set_world (mk_world r (target_calls (world self))));;
  get_log_rho x.

(** The Metropolis log-ratio with the Hastings correction, as the
    specification states it for an asymmetric proposal. *)
Definition hastings_log_rho (proposed_point : vector) : M chain float :=
  m ← _get_log_rho_metropolis proposed_point;
  self ← get;
  mret (m + evaluate (proposal self) (current self) proposed_point
          - evaluate (proposal self) proposed_point (current self)).

(** The exceptions the evaluation of
    [self._get_log_rho_metropolis(proposed_point, self.points[-1])] can
    end in. *)
Definition hastings_failure (e : exn) : Prop :=
  e = AttributeError "points" ∨ e = IndexError
  ∨ e = TypeError "_get_log_rho_metropolis() takes 2 positional arguments".

(** What a log-ratio function leaves untouched. *)
Definition frame (self self' : chain) : Prop :=
  hist self' = hist self ∧ current self' = current self
  ∧ proposal self' = proposal self ∧ target self' = target self
  ∧ points self' = points self.

(** Between two worlds, the user's target has been evaluated at points
    satisfying [P] only. *)
Definition calls_within (P : vector → Prop) (w w' : world_t) : Prop :=
  ∃ new, target_calls w' = target_calls w ++ new ∧ Forall P new.

(** A target that always returns a value and never yields a NaN
    difference between two of its values. *)
Definition never_nan (f : vector -> M world_t float) : Prop :=
  ∀ x y w, ∃ a b w1 w2,
    f x w = (Ok a, w1) ∧ f y w1 = (Ok b, w2) ∧ is_nan (a - b) = false.

End Spec.

End MetropolisSpec.

(** ** Concrete collaborators for the examples *)

Module Fixture.

(** A scripted generator: the points the proposal will propose and the
    uniform numbers [rand] will return. *)
Definition tape : Type := (list vector * list float)%type.

Definition scripted_propose (current : vector) (r : tape) : vector * tape :=
  match fst r with
  | p :: ps => (p, (ps, snd r))
  | [] => (current, r)
  end.

Definition scripted_rand (r : tape) : float * tape :=
  match snd r with
  | u :: us => (u, (fst r, us))
  | [] => (0.5, r)
  end.

(** The natural logarithm at the arguments the examples use. *)
Definition tab_log (u : float) : float :=
  if u =? 1 then 0
  else if u =? 0.5 then -0.6931471805599453
  else if u =? 0.25 then -1.3862943611198906
  else nan.

(** The exponential at the argument the examples use. *)
Definition tab_exp (x : float) : float :=
  if x =? 0 then 1 else nan.

(** [k ** d] where the result needs no rounding. *)
Definition tab_pow (k : nat) (d : float) : res float :=
  if d =? 0 then Ok 1
  else if d =? 1 then Ok (float_of_nat k)
  else if bool_decide (k = 1%nat) then Ok 1
  else Raise (OtherError "not tabulated").

(** The sample covariance with divisor [N - 1], columns being the
    dimensions. *)
Definition sample_cov (points : list vector) : matrix :=
  let n := float_of_nat (length points) in
  let d := length (default [] (head points)) in
  let mean := map (fun s => s / n) (PMC.vsum d points) in
  let devs := map (fun x => PMC.vsub x mean) points in
  map (map (fun s => s * (1 / (n - 1)))) (PMC.msum d (map (fun v => PMC.outer v v) devs)).

Definition lib : Numpy.lib := mk_lib tab_log tab_exp sample_cov tab_pow 0.

(** The log-density of a standard normal, up to its constant. *)
Definition log_gauss (x : vector) : res float :=
  Ok (- (PMC.fsum (map (fun a => a * a) x)) / 2).

(** The support of the examples: points with non-negative
    coordinates. *)
Definition nonneg (x : vector) : bool := forallb (fun a => 0 <=? a) x.

Definition symmetric_proposal : MarkovChain.ProposalDensity (R := tape) :=
  MarkovChain.mk_proposal true scripted_propose (fun _ _ => 0) [[1]].

Definition asymmetric_proposal : MarkovChain.ProposalDensity (R := tape) :=
  MarkovChain.mk_proposal false scripted_propose (fun _ _ => 0) [[1]].

(** A chain started inside the support whose proposal will propose a
    point outside of it. *)
Definition chain_leaving_support : MarkovChain.t :=
  MarkovChain.__init__ History.empty None (MarkovChain.observed log_gauss)
    symmetric_proposal [1] (Some nonneg) ([[-1]], []).

(** A chain with three scripted proposals: one uphill, one downhill that
    is rejected, one downhill that is accepted. *)
Definition chain_three_steps : MarkovChain.t :=
  MarkovChain.__init__ History.empty None (MarkovChain.observed log_gauss)
    symmetric_proposal [1] None ([[0.5]; [2]; [1]], [0.5; 0.5]).

Definition chain_asymmetric : MarkovChain.t :=
  MarkovChain.__init__ History.empty (Some [[1]]) (MarkovChain.observed log_gauss)
    asymmetric_proposal [1] None ([[0.5]], []).

(** A target that is undefined outside the support. *)
Definition partial_target (x : vector) : res float :=
  if nonneg x then log_gauss x else Ok nan.

(** A chain whose second proposal lies where the target is undefined. *)
Definition chain_hits_nan : MarkovChain.t :=
  MarkovChain.__init__ History.empty None (MarkovChain.observed partial_target)
    symmetric_proposal [1] None ([[0.5]; [-1]], []).

(** A chain whose last run accepted both of its moves. *)
Definition chain_all_accepted : MarkovChain.t :=
  MarkovChain.mk_chain [2] [History.mk_run [[0]; [2]] 2] None symmetric_proposal
    (MarkovChain.mk_world (([], []) : tape) []) (MarkovChain.observed log_gauss).

(** A two-dimensional chain with two runs in its history; the covariance
    of the last run is [[2; 4]; [4; 8]], that of the older one is not. *)
Definition chain_two_runs : MarkovChain.t :=
  MarkovChain.mk_chain [2; 4]
    [History.mk_run [[5; 5]; [7; 9]; [5; 5]] 1; History.mk_run [[0; 0]; [2; 4]] 2]
    None
    (MarkovChain.mk_proposal true scripted_propose (fun _ _ => 0) [[1; 0]; [0; 1]])
    (MarkovChain.mk_world (([], []) : tape) []) (MarkovChain.observed log_gauss).

(** An adaptive chain before its second call of [adapt()], with
    [damping = 1.] and the unit matrix as [unscaled_sigma]. *)
Definition adaptive_chain_second_call : AdaptiveMarkovChain.t :=
  AdaptiveMarkovChain.mk_adaptive chain_two_runs 1 1.5 1 100 0.0001 0.35 0.15 1
    [[1; 0]; [0; 1]].

(** Calling [adapt()] [n] times in a row. *)
Fixpoint adapt_times (n : nat) : M (AdaptiveMarkovChain.t (R := tape)) unit :=
  match n with
  | 0 => mret tt
  | S n' => AdaptiveMarkovChain.adapt lib;; adapt_times n'
  end.

(** The proposal, samples and latent labels of [TestPMCWithOverlap] in
    [mix_adapt/pmc_test.py]; the mixture is stored at address 2, its
    components at 0 and 1. *)
Definition pmc_samples : list vector :=
  [[8.25176666; -0.46218162; 6.38766958];
   [10.30030254; 0.7211386; 8.75618216];
   [9.80807539; 2.0664736; 8.3028291];
   [11.38801874; 1.90190379; 7.76177193];
   [11.06700609; 1.52600855; 8.82273509];
   [10.97130581; 0.23669273; 6.89884423];
   [10.2306073; 0.76789268; 8.30328072];
   [10.55012467; 1.26067336; 6.83958086];
   [9.44298062; 1.47722829; 8.32750139];
   [11.74685298; 2.17160491; 6.83467116]].

Definition pmc_latent : list nat := [0; 1; 1; 0; 0; 1; 0; 0; 1; 0]%nat.

Definition gauss1 : PMC.obj :=
  PMC.Component (map (fun x => x + 0.001) [10.5; 1.1; 8.0])
    (map (map (fun x => x + 0.001))
         [[1.15; 0.875; 0.0]; [0.875; 0.75; -0.2]; [0.0; -0.2; 1.1]]).

Definition gauss2 : PMC.obj :=
  PMC.Component (map (fun x => x - 0.005) [10.3; 1.4; 7.8])
    (map (map (fun x => x - 0.005))
         [[1.0; 0.01; 0.1]; [0.01; 0.75; 0.0]; [0.1; 0.0; 2.1]]).

Definition pmc_heap : PMC.heap :=
  <[0%nat := gauss1]> (<[1%nat := gauss2]>
    (<[2%nat := PMC.Mixture [0; 1]%nat [0.7; 0.3]]> ∅)).

(** A heavy-tailed kernel around the mean that needs no exponential,
    standing for a component density. *)
Definition kernel_density (mu : vector) (sigma : matrix) (x : vector) : float :=
  1 / (1 + PMC.fsum (map (fun a => a * a) (PMC.vsub x mu))).

(** An estimate whose covariance has a diagonal entry that is not
    positive: the case of a component with a single sample. *)
Definition no_variance (e : float * vector * matrix) : bool :=
  existsb (fun v => negb (0 <? v)) (imap (fun i row => default 0 (row !! i)) (snd e)).

(** The labels of [test_invalid_cov]: all samples but the last belong to
    component 0. *)
Definition pmc_latent_single : list nat := [0; 0; 0; 0; 0; 0; 0; 0; 0; 1]%nat.

(** The calls of [gaussian_pmc] in [TestPMCWithOverlap], without
    weights, on the store of the example. *)
Definition pmc_call (latent : list nat) (rb : bool) (mincount : nat)
    : res nat * gmap nat PMC.obj :=
  PMC.gaussian_pmc kernel_density no_variance pmc_samples 2 None (Some latent)
    rb mincount pmc_heap.

(** The weights and the components of the mixture a call returned. *)
Definition adapted_prop (out : res nat * gmap nat PMC.obj)
    : option (vector * list (option PMC.obj)) :=
  match fst out with
  | Ok l =>
      match snd out !! l with
      | Some (PMC.Mixture cs ws) => Some (ws, map (fun c => snd out !! c) cs)
      | _ => None
      end
  | Raise _ => None
  end.

(** [numpy.testing.assert_allclose] with its default tolerances. *)
Definition allclose (actual desired : float) : bool :=
  abs (actual - desired) <=? 1e-7 * abs desired.

Definition allclose_vector (actual desired : vector) : bool :=
  bool_decide (length actual = length desired)
  && forallb (fun p => allclose (fst p) (snd p)) (zip actual desired).

Definition allclose_matrix (actual desired : matrix) : bool :=
  bool_decide (length actual = length desired)
  && forallb (fun p => allclose_vector (fst p) (snd p)) (zip actual desired).

(** An adaptive chain with the defaults of the constructor, built on the
    chain whose last run accepted both of its moves. *)
Definition adaptive_chain : AdaptiveMarkovChain.t :=
  AdaptiveMarkovChain.mk_adaptive chain_all_accepted 0 1.5 1 100 0.0001 0.35 0.15 0.5
    [[1]].

End Fixture.

(** * Properties *)

Import MarkovChain MetropolisSpec.

Ltac unfold_M :=
  unfold mbind, M_bind, mret, M_ret, Py.bind, Py.ret, Py.get, Py.gets,
    Py.modify, Py.raise, Py.lift in *.

(** ** The Hastings path *)

Section HastingsPath.

Context {R : Type}.
Variable np : Numpy.lib.
Variable rand : R -> float * R.

Local Abbreviation chain := (MarkovChain.t (R := R)).

Lemma metropolis_hasting_raises (x : vector) (self : chain) :
  ∃ e, _get_log_rho_metropolis_hasting x self = (Raise e, self)
       ∧ hastings_failure e.
Proof.
  unfold _get_log_rho_metropolis_hasting, points_last, hastings_failure.
  unfold_M.
  destruct (points self) as [ps|]; [|eauto].
  destruct (last ps); eauto.
Qed.

(** C3: with a proposal that is not symmetric, every call [run(N)] with
    [N >= 1] raises in its first iteration, from the call
    [self._get_log_rho_metropolis(proposed_point, self.points[-1])], and
    appends nothing to the history; no log-ratio with a Hastings term is
    ever computed. *)
Theorem C3_hastings_path_always_raises (N : nat) (self : chain) :
  symmetric (proposal self) = false →
  (1 ≤ N)%nat →
  ∃ e self', run np rand N self = (Raise e, self')
             ∧ hastings_failure e
             ∧ hist self' = hist self
             ∧ current self' = current self.
Proof.
  intros Hsym HN. destruct N as [|n]; [lia|].
  unfold run. unfold_M. unfold select_log_rho. rewrite Hsym.
  cbn [run_loop]. unfold run_body, in_world. unfold_M.
  cbn. destruct (propose _ _ _) as [x r]. cbn.
  destruct (metropolis_hasting_raises x
              (set_world (mk_world r (target_calls (world self))) self))
    as (e & He & Hfail).
  rewrite He. eauto 6.
Qed.

End HastingsPath.

(** The instance of C3 at the asymmetric example chain. *)
Lemma C3_hastings_path_witness :
  ∃ e self', run Fixture.lib Fixture.scripted_rand 1 Fixture.chain_asymmetric
               = (Raise e, self')
             ∧ hastings_failure e
             ∧ hist self' = hist Fixture.chain_asymmetric
             ∧ current self' = current Fixture.chain_asymmetric.
Proof.
  apply (C3_hastings_path_always_raises Fixture.lib Fixture.scripted_rand 1
           Fixture.chain_asymmetric); [reflexivity | lia].
Defined.

(** ** Points outside the support *)

Section Indicator.

Context {R : Type}.

Local Abbreviation world_t := (MarkovChain.World (R := R)).

(** Where the indicator is false the merged target returns [0.] and the
    user's target is not evaluated. *)
Lemma merged_target_outside_support (target : vector → M world_t float)
    (indicator : vector → bool) (x : vector) (w : world_t) :
  indicator x = false →
  _merge_target_with_indicator target (Some indicator) x w = (Ok 0, w).
Proof. intros H. cbn. rewrite H. reflexivity. Qed.

End Indicator.

(** C1 at a concrete chain: the chain stands at [1], inside the support,
    and the point [-1], for which the indicator is false, is proposed.
    The merged target gives it the log-probability [0.], the log-ratio
    is [0. - (-0.5) >= 0], and the point is accepted: it becomes the
    current point and the row of the run.  The user's target has been
    evaluated at [1] only. *)
Lemma C1_point_outside_support_is_accepted :
  Fixture.nonneg [-1] = false
  ∧ ∃ self', run Fixture.lib Fixture.scripted_rand 1 Fixture.chain_leaving_support
               = (Ok tt, self')
             ∧ current self' = [-1]
             ∧ hist self' = [History.mk_run [[-1]] 1]
             ∧ target_calls (world self') = [[1]].
Proof.
  split; [reflexivity|].
  eexists. split; [vm_compute; reflexivity|].
  repeat split; reflexivity.
Qed.

(** ** The covariance scale factor *)

(** C2 at the defaults of the constructor (with [damping = 1.]): after
    twelve calls of [adapt()] that each see a run with acceptance rate 1,
    all of them returning normally, [covar_scale_factor] is
    [1.5 ** 12 = 129.746...], above [covar_scale_factor_max = 100.]. *)
Lemma C2_scale_factor_exceeds_max :
  ∃ s0 s, AdaptiveMarkovChain.__init__ Fixture.chain_all_accepted {["damping" := 1]}
            = Ok s0
          ∧ Fixture.adapt_times 12 s0 = (Ok tt, s)
          ∧ AdaptiveMarkovChain.covar_scale_factor s0 = 1
          ∧ AdaptiveMarkovChain.covar_scale_factor s = 129.746337890625
          ∧ AdaptiveMarkovChain.covar_scale_factor_max s = 100
          ∧ (AdaptiveMarkovChain.covar_scale_factor_max s
             <? AdaptiveMarkovChain.covar_scale_factor s) = true.
Proof.
  eexists. eexists.
  split; [vm_compute; reflexivity|].
  split; [vm_compute; reflexivity|].
  repeat split; reflexivity.
Qed.

(** ** The loop of [run] *)

Section RunLoop.

Context {R : Type}.
Variable np : Numpy.lib.
Variable rand : R -> float * R.

Local Abbreviation chain := (MarkovChain.t (R := R)).

Lemma metropolis_frame (x : vector) (self : chain) r self' :
  _get_log_rho_metropolis x self = (r, self') → frame self self'.
Proof.
  unfold _get_log_rho_metropolis, in_world, frame. unfold_M. cbn.
  destruct (target self x (world self)) as [[a|e] w1]; cbn.
  - destruct (target self (current self) w1) as [[b|e] w2]; cbn;
      intros [= <- <-]; done.
  - intros [= <- <-]; done.
Qed.

Lemma select_log_rho_frame (self0 : chain) (x : vector) (self : chain) r self' :
  select_log_rho self0 x self = (r, self') → frame self self'.
Proof.
  unfold select_log_rho. destruct (symmetric (proposal self0)).
  - apply metropolis_frame.
  - destruct (metropolis_hasting_raises x self) as (e & He & _).
    rewrite He. intros [= <- <-]. done.
Qed.

(** An iteration of the loop is a transition whose outcome is written to
    row [i_N] and added to the counter. *)
Lemma run_body_transition (glr : vector → M chain float) (i_N : nat)
    (l : locals) (self : chain) :
  run_body np rand glr i_N l self =
  match transition np rand glr self with
  | (Ok a, self') =>
      (Ok (mk_locals (<[i_N := current self']> (this_run l))
                     (accept_count l + (if a then 1 else 0))), self')
  | (Raise e, self') => (Raise e, self')
  end.
Proof.
  unfold run_body, transition, in_world. unfold_M. cbn.
  destruct (propose _ _ _) as [x r]. cbn.
  destruct (glr x _) as [[v|e] s1]; cbn; [|reflexivity].
  destruct (is_nan v); cbn; [reflexivity|].
  destruct (0 <=? v); cbn.
  { do 2 f_equal. f_equal. lia. }
  destruct (rand _) as [u r']. cbn.
  destruct (np_log np u <=? v); cbn.
  - do 2 f_equal. f_equal. lia.
  - do 2 f_equal. f_equal. lia.
Qed.

Lemma accepted_moves_cons (a : bool) (x : vector) (tr : list (bool * vector)) :
  accepted_moves ((a, x) :: tr) = ((if a then 1 else 0) + accepted_moves tr)%nat.
Proof.
  unfold accepted_moves. rewrite filter_cons. cbn.
  destruct a; case_decide; cbn; congruence.
Qed.

Lemma accepted_moves_le (tr : list (bool * vector)) :
  (accepted_moves tr ≤ length tr)%nat.
Proof. apply length_filter. Qed.

Lemma trajectory_length (glr : vector → M chain float) (n : nat) :
  ∀ (self self' : chain) tr,
    trajectory np rand glr n self = (Ok tr, self') → length tr = n.
Proof.
  induction n as [|n IH]; intros self self' tr; cbn [trajectory]; unfold_M.
  - intros [= <- _]. reflexivity.
  - destruct (transition np rand glr self) as [[a|e] s1]; [|discriminate].
    destruct (trajectory np rand glr n s1) as [[rest|e] s2] eqn:Hrest;
      [|discriminate].
    intros [= <- _]. cbn. f_equal. eapply IH, Hrest.
Qed.

(** The loop writes the trajectory into the rows [i_N .. i_N + n - 1] of
    the array and adds the accepted moves to the counter; when a
    transition raises, so does the loop, in the same state. *)
Lemma run_loop_trajectory (glr : vector → M chain float) (n : nat) :
  ∀ (i_N : nat) (l : locals) (self : chain),
    (i_N + n ≤ length (this_run l))%nat →
    run_loop np rand glr n i_N l self =
    match trajectory np rand glr n self with
    | (Ok tr, self') =>
        (Ok (mk_locals (take i_N (this_run l) ++ map snd tr
                          ++ drop (i_N + n) (this_run l))
                       (accept_count l + accepted_moves tr)), self')
    | (Raise e, self') => (Raise e, self')
    end.
Proof.
  induction n as [|n IH]; intros i_N l self Hlen;
    cbn [run_loop trajectory]; unfold_M.
  - cbn. rewrite Nat.add_0_r, take_drop. destruct l; cbn.
    do 2 f_equal. f_equal. unfold accepted_moves. cbn. lia.
  - rewrite run_body_transition.
    destruct (transition np rand glr self) as [[a|e] s1]; [|reflexivity].
    rewrite IH by (cbn; rewrite length_insert; lia).
    destruct (trajectory np rand glr n s1) as [[rest|e] s2]; [|reflexivity].
    cbn [this_run accept_count map snd].
    rewrite accepted_moves_cons.
    do 2 f_equal. f_equal; [|lia].
    rewrite (take_S_r _ _ (current s1))
      by (apply list_lookup_insert_eq; lia).
    rewrite take_insert_ge by lia.
    rewrite drop_insert_lt by lia.
    rewrite <- app_assoc. cbn.
    replace (S (i_N + n))%nat with (i_N + S n)%nat by lia. reflexivity.
Qed.

Lemma transition_hist (glr : vector → M chain float) (self : chain) r self' :
  (∀ x s r s', glr x s = (r, s') → hist s' = hist s) →
  transition np rand glr self = (r, self') → hist self' = hist self.
Proof.
  intros Hglr. unfold transition. unfold_M. cbn.
  destruct (propose _ _ _) as [x r0]. cbn.
  destruct (glr x _) as [[v|e] s1] eqn:Hv; cbn; apply Hglr in Hv; cbn in Hv.
  2: { intros [= <- <-]. done. }
  destruct (is_nan v); cbn. { intros [= <- <-]. done. }
  destruct (0 <=? v); cbn. { intros [= <- <-]. done. }
  destruct (rand _) as [u r']. cbn.
  destruct (np_log np u <=? v); cbn; intros [= <- <-]; done.
Qed.

Lemma run_loop_hist (glr : vector → M chain float) (n : nat) :
  (∀ x s r s', glr x s = (r, s') → hist s' = hist s) →
  ∀ i_N l (self : chain) r self',
    run_loop np rand glr n i_N l self = (r, self') → hist self' = hist self.
Proof.
  intros Hglr. induction n as [|n IH]; intros i_N l self r self';
    cbn [run_loop]; unfold_M.
  - intros [= <- <-]. reflexivity.
  - rewrite run_body_transition.
    destruct (transition np rand glr self) as [[a|e] s1] eqn:Ht;
      apply transition_hist in Ht; try assumption.
    + intros Hrest. apply IH in Hrest. congruence.
    + intros [= <- <-]. assumption.
Qed.

Lemma run_loop_app (glr : vector → M chain float) (i k : nat) :
  ∀ i_N l (self : chain),
    run_loop np rand glr (i + k) i_N l self =
    match run_loop np rand glr i i_N l self with
    | (Ok l', self') => run_loop np rand glr k (i_N + i) l' self'
    | (Raise e, self') => (Raise e, self')
    end.
Proof.
  induction i as [|i IH]; intros i_N l self; cbn [run_loop Nat.add]; unfold_M.
  - rewrite Nat.add_0_r. reflexivity.
  - destruct (run_body np rand glr i_N l self) as [[l'|e] s1]; [|reflexivity].
    rewrite IH. replace (S i_N + i)%nat with (i_N + S i)%nat by lia.
    reflexivity.
Qed.

Lemma run_body_nan (glr : vector → M chain float) (i_N : nat) (l : locals)
    (self s : chain) (v : float) :
  next_log_rho glr self = (Ok v, s) →
  is_nan v = true →
  run_body np rand glr i_N l self = (Raise (ValueError "encountered NaN"), s).
Proof.
  unfold next_log_rho, run_body, in_world. unfold_M. cbn.
  destruct (propose _ _ _) as [x r]. cbn.
  intros -> Hnan. cbn. rewrite Hnan. reflexivity.
Qed.

Lemma transition_metropolis_ok (self : chain) :
  never_nan (target self) →
  ∃ a self', transition np rand _get_log_rho_metropolis self = (Ok a, self')
             ∧ target self' = target self.
Proof.
  intros Hnan. unfold transition, _get_log_rho_metropolis, in_world.
  unfold_M. cbn.
  destruct (propose _ _ _) as [x r]. cbn.
  destruct (Hnan x (current self) (mk_world r (target_calls (world self))))
    as (a & b & w1 & w2 & Ha & Hb & Hab).
  rewrite Ha. cbn. rewrite Hb. cbn. rewrite Hab.
  destruct (0 <=? a - b); cbn; [eauto|].
  destruct (rand _) as [u r']. cbn.
  destruct (np_log np u <=? a - b); cbn; eauto.
Qed.

Lemma trajectory_metropolis_ok (n : nat) :
  ∀ self : chain,
    never_nan (target self) →
    ∃ tr self', trajectory np rand _get_log_rho_metropolis n self = (Ok tr, self').
Proof.
  induction n as [|n IH]; intros self Hnan; cbn [trajectory]; unfold_M.
  - eauto.
  - destruct (transition_metropolis_ok self Hnan) as (a & s1 & -> & Ht).
    destruct (IH s1) as (rest & s2 & ->); [rewrite Ht; assumption|]. eauto.
Qed.

(** [run] is the trajectory followed by one [append]. *)
Lemma run_as_trajectory (N : nat) (self : chain) :
  run np rand N self =
  match trajectory np rand (select_log_rho self) N self with
  | (Ok tr, self1) =>
      (Ok tt, set_hist (History.append (hist self1) (map snd tr)
                                       (accepted_moves tr)) self1)
  | (Raise e, self1) => (Raise e, self1)
  end.
Proof.
  unfold run. unfold_M.
  rewrite run_loop_trajectory
    by (cbn; unfold np_empty; rewrite length_replicate; lia).
  destruct (trajectory _ _ _ _ _) as [[tr|e] self1]; [|reflexivity].
  cbn. rewrite drop_ge by (unfold np_empty; rewrite length_replicate; lia).
  rewrite app_nil_r. reflexivity.
Qed.

Lemma trajectory_hist (N : nat) (self0 self self1 : chain) r :
  trajectory np rand (select_log_rho self0) N self = (r, self1) →
  hist self1 = hist self.
Proof.
  intros Htr.
  pose proof (run_loop_trajectory (select_log_rho self0) N 0
                (mk_locals (replicate N []) 0) self) as H.
  rewrite Htr in H.
  assert (Hglr : ∀ x s0 r s', select_log_rho self0 x s0 = (r, s') →
                              hist s' = hist s0).
  { intros x s0 r0 s' Hx. apply select_log_rho_frame in Hx. apply Hx. }
  destruct r; eapply run_loop_hist; try apply H; try assumption;
    cbn; rewrite length_replicate; lia.
Qed.

(** C4: whenever [run(N)] returns, it has appended one run to the
    history; the rows of that run are the [N] points of the trajectory
    (the retained point on each rejection) and its accept count is the
    number of accepted moves, which is at most [N].  With a symmetric
    proposal and a target that yields no NaN ratio the call does
    return. *)
Theorem C4_run_appends_full_trajectory (N : nat) (self : chain) :
  (∀ self', run np rand N self = (Ok tt, self') →
     ∃ tr self1,
       trajectory np rand (select_log_rho self) N self = (Ok tr, self1)
       ∧ hist self' = hist self ++ [History.mk_run (map snd tr) (accepted_moves tr)]
       ∧ History.get_run_points (hist self') = Ok (map snd tr)
       ∧ History.get_run_accept_count (hist self') = Ok (accepted_moves tr)
       ∧ length (map snd tr) = N
       ∧ (accepted_moves tr ≤ N)%nat)
  ∧ (symmetric (proposal self) = true → never_nan (target self) →
     ∃ self', run np rand N self = (Ok tt, self')).
Proof.
  split.
  - intros self'. rewrite run_as_trajectory.
    destruct (trajectory _ _ _ _ _) as [[tr|e] self1] eqn:Htr; [|discriminate].
    intros [= <-]. exists tr, self1.
    pose proof (trajectory_length _ _ _ _ _ Htr) as Hlen.
    pose proof (trajectory_hist _ _ _ _ _ Htr) as Hhist.
    split; [reflexivity|].
    cbn. unfold History.append, History.get_run_points,
      History.get_run_accept_count. rewrite Hhist, last_snoc. cbn.
    rewrite length_map, Hlen.
    repeat split; try reflexivity.
    rewrite <- Hlen. apply accepted_moves_le.
  - intros Hsym Hnan. rewrite run_as_trajectory.
    unfold select_log_rho. rewrite Hsym.
    destruct (trajectory_metropolis_ok N self Hnan) as (tr & self1 & ->).
    eauto.
Qed.

(** C6: when the first [i] iterations of [run(N)] have gone through and
    the log-ratio of iteration [i < N] is NaN, the call raises
    [ValueError('encountered NaN')] at that iteration, in the state the
    evaluation of the log-ratio left, and no run is appended to the
    history. *)
Theorem C6_nan_log_rho_raises (N i : nat) (self self_i s : chain)
    (l_i : locals) (v : float) :
  (i < N)%nat →
  run_loop np rand (select_log_rho self) i 0
    (mk_locals (np_empty np N (length (current self))) 0) self = (Ok l_i, self_i) →
  next_log_rho (select_log_rho self) self_i = (Ok v, s) →
  is_nan v = true →
  run np rand N self = (Raise (ValueError "encountered NaN"), s)
  ∧ hist s = hist self.
Proof.
  intros Hi Hloop Hnext Hnan.
  assert (Hglr : ∀ x s0 r s', select_log_rho self x s0 = (r, s') →
                              hist s' = hist s0).
  { intros x s0 r s' Hx. apply select_log_rho_frame in Hx. apply Hx. }
  split.
  - unfold run. unfold_M.
    replace N with (i + S (N - S i))%nat at 1 by lia.
    rewrite run_loop_app, Hloop. cbn [run_loop]. unfold_M.
    rewrite (run_body_nan _ _ _ _ _ _ Hnext Hnan). reflexivity.
  - apply run_loop_hist in Hloop; [|assumption].
    rewrite <- Hloop. revert Hnext. unfold next_log_rho. unfold_M. cbn.
    destruct (propose _ _ _) as [x r]. cbn.
    intros Hx. apply Hglr in Hx. exact Hx.
Qed.

End RunLoop.

(** The instance of C4 at the example chain with three proposals: the
    run is [[0.5]; [0.5]; [1]] with two accepted moves. *)
Lemma C4_run_witness :
  ∃ self',
    run Fixture.lib Fixture.scripted_rand 3 Fixture.chain_three_steps = (Ok tt, self')
    ∧ ∃ tr self1,
       trajectory Fixture.lib Fixture.scripted_rand
         (select_log_rho Fixture.chain_three_steps) 3 Fixture.chain_three_steps
       = (Ok tr, self1)
       ∧ hist self' = hist Fixture.chain_three_steps
                      ++ [History.mk_run (map snd tr) (accepted_moves tr)]
       ∧ History.get_run_points (hist self') = Ok (map snd tr)
       ∧ History.get_run_accept_count (hist self') = Ok (accepted_moves tr)
       ∧ length (map snd tr) = 3%nat
       ∧ (accepted_moves tr ≤ 3)%nat.
Proof.
  eexists. split; [vm_compute; reflexivity|].
  apply (proj1 (C4_run_appends_full_trajectory Fixture.lib Fixture.scripted_rand 3
                  Fixture.chain_three_steps)).
  vm_compute. reflexivity.
Defined.

(** The first three rows and the accept count of that run. *)
Example run_three_steps :
  ∃ self', run Fixture.lib Fixture.scripted_rand 3 Fixture.chain_three_steps
             = (Ok tt, self')
           ∧ hist self' = [History.mk_run [[0.5]; [0.5]; [1]] 2].
Proof. eexists. split; [vm_compute; reflexivity|reflexivity]. Qed.

(** The instance of C6 at the example chain whose second proposal is a
    point where the target is undefined. *)
Lemma C6_nan_witness :
  ∃ s, run Fixture.lib Fixture.scripted_rand 2 Fixture.chain_hits_nan
         = (Raise (ValueError "encountered NaN"), s)
       ∧ hist s = hist Fixture.chain_hits_nan.
Proof.
  eexists.
  eapply (C6_nan_log_rho_raises Fixture.lib Fixture.scripted_rand 2 1
            Fixture.chain_hits_nan).
  - lia.
  - vm_compute. reflexivity.
  - vm_compute. reflexivity.
  - reflexivity.
Defined.

(** ** Adaptation *)

Section Adaptation.

Import AdaptiveMarkovChain.

Context {R : Type}.
Variable np : Numpy.lib.

Local Abbreviation adaptive := (AdaptiveMarkovChain.t (R := R)).

Lemma update_scale_factor_frame (rate : float) (self : adaptive) :
  let self' := snd (_update_scale_factor rate self) in
  adapt_count self' = adapt_count self
  ∧ unscaled_sigma self' = unscaled_sigma self
  ∧ chain self' = chain self.
Proof.
  unfold _update_scale_factor. unfold_M. cbn.
  destruct (_ && _); cbn; [done|].
  destruct (_ && _); cbn; [|done].
  destruct (truediv _ _); cbn; done.
Qed.

Lemma update_scale_factor_returns (rate : float) (self : adaptive) :
  (covar_scale_multiplier self =? 0) = false →
  fst (_update_scale_factor rate self) = Ok tt.
Proof.
  intros Hm. unfold _update_scale_factor, truediv. unfold_M. cbn.
  destruct (_ && _); cbn; [done|].
  destruct (_ && _); cbn; [|done].
  rewrite Hm. reflexivity.
Qed.

(** Every call of [adapt()] counts, whether it returns or raises. *)
Lemma adapt_counts_every_call (self : adaptive) :
  adapt_count (snd (adapt np self)) = S (adapt_count self).
Proof.
  unfold adapt. unfold_M. cbn.
  destruct (py_pow _ _ _); cbn; [|done].
  destruct (truediv 1 _); cbn; [|done].
  destruct (History.get_run_points _); cbn; [|done].
  destruct (History.get_run_accept_count _); cbn; [|done].
  destruct (truediv _ _) as [rate|]; cbn; [|done].
  destruct (mat_add _ _) as [new|]; cbn; [|done].
  pose proof (update_scale_factor_frame rate
    (set_unscaled_sigma new (set_adapt_count (S (adapt_count self)) self))) as H.
  cbn in H.
  destruct (_update_scale_factor _ _) as [[[]|e] s1]; cbn in *; apply H.
Qed.

Lemma row_add_scaled (c1 c2 : float) (r1 : vector) :
  ∀ r2 : vector,
    length r1 = length r2 →
    broadcast (fun x y => Ok (x + y)) (map (fun x => c1 * x) r1)
      (map (fun x => c2 * x) r2)
    = Ok (zip_with (fun x y => c1 * x + c2 * y) r1 r2).
Proof.
  intros r2 Hlen. unfold broadcast.
  rewrite decide_True by (rewrite !length_map; exact Hlen).
  revert r2 Hlen. induction r1 as [|x r1 IH]; intros [|y r2] Hlen;
    try discriminate; [reflexivity|].
  cbn. cbn in IH. rewrite IH by (cbn in Hlen; lia). reflexivity.
Qed.

(** On matrices of the same shape, the sum of two scaled matrices has
    the entries [c1 * x + c2 * y]. *)
Lemma mat_add_scaled (c1 c2 : float) (m1 m2 : matrix) :
  same_shape m1 m2 →
  mat_add (mat_scale c1 m1) (mat_scale c2 m2)
  = Ok (zip_with (zip_with (fun x y => c1 * x + c2 * y)) m1 m2).
Proof.
  intros Hshape. unfold mat_add, mat_scale. unfold broadcast at 1.
  rewrite decide_True
    by (rewrite !length_map; eapply Forall2_length, Hshape).
  induction Hshape as [|r1 r2 m1 m2 Hrow _ IH]; [reflexivity|].
  cbn -[broadcast]. cbn -[broadcast] in IH.
  rewrite (row_add_scaled c1 c2 r1 r2 Hrow), IH. reflexivity.
Qed.

(** C5: in the [k]-th call of [adapt()], with [a = 1./k**damping],
    every entry of [unscaled_sigma] becomes [(1-a) * x + a * c], where
    [x] is its previous value and [c] the entry of the covariance of the
    rows of the most recent run; the older runs of the history do not
    enter.  The call returns unless the scale multiplier is zero. *)
Theorem C5_adapt_damped_update (self : adaptive) (k : nat) (older : History.t)
    (points : list vector) (accepted : nat) (p accept_rate : float) :
  S (adapt_count self) = k →
  MarkovChain.hist (chain self) = older ++ [History.mk_run points accepted] →
  py_pow np k (damping self) = Ok p →
  (p =? 0) = false →
  truediv (float_of_nat accepted) (float_of_nat (length points)) = Ok accept_rate →
  same_shape (unscaled_sigma self) (np_cov np points) →
  adapt_count (snd (adapt np self)) = k
  ∧ unscaled_sigma (snd (adapt np self))
    = damped_update (1 / p) (unscaled_sigma self) (np_cov np points)
  ∧ ((covar_scale_multiplier self =? 0) = false → fst (adapt np self) = Ok tt).
Proof.
  intros Hk Hhist Hpow Hp Hrate Hshape.
  split; [rewrite adapt_counts_every_call; exact Hk|].
  assert (Hdiv : truediv 1 p = Ok (1 / p)) by (unfold truediv; rewrite Hp; done).
  pose proof (mat_add_scaled (1 - 1 / p) (1 / p) _ _ Hshape) as Hsigma.
  fold (damped_update (1 / p) (unscaled_sigma self) (np_cov np points)) in Hsigma.
  set (new_sigma := damped_update (1 / p) (unscaled_sigma self)
                      (np_cov np points)) in *.
  unfold adapt. unfold_M. cbn -[truediv float_of_nat mat_add mat_scale].
  rewrite Hk, Hpow. cbn -[truediv float_of_nat mat_add mat_scale].
  rewrite Hdiv. cbn -[truediv float_of_nat mat_add mat_scale].
  unfold History.get_run_points, History.get_run_accept_count.
  rewrite Hhist, last_snoc. cbn -[truediv float_of_nat mat_add mat_scale].
  rewrite Hrate. cbn -[truediv float_of_nat mat_add mat_scale].
  rewrite Hsigma. cbn -[truediv float_of_nat mat_add mat_scale].
  pose proof (update_scale_factor_frame accept_rate
    (set_unscaled_sigma new_sigma (set_adapt_count k self))) as Hframe.
  pose proof (update_scale_factor_returns accept_rate
    (set_unscaled_sigma new_sigma (set_adapt_count k self))) as Hret.
  cbn in Hframe, Hret.
  destruct (_update_scale_factor _ _) as [[[]|e] s1]; cbn in *.
  - split; [apply Hframe|]. reflexivity.
  - split; [apply Hframe|]. intros Hm. specialize (Hret Hm). discriminate.
Qed.

(** ** Setting the adaptation parameters *)

Lemma pop_spec (key : string) (d : float) (kwargs : gmap string float) :
  pop key d kwargs = (default d (kwargs !! key), delete key kwargs).
Proof.
  unfold pop. destruct (kwargs !! key) eqn:Hk; cbn; [reflexivity|].
  rewrite delete_id by assumption. reflexivity.
Qed.

(** What is left of [kwargs] after the seven pops. *)
Lemma leftover_keeps_other_keys (kwargs : gmap string float) (k : string) :
  k ∉ adapt_keywords →
  foldr delete kwargs (reverse adapt_keywords) !! k = kwargs !! k.
Proof.
  intros Hk. cbn.
  repeat (rewrite lookup_delete_ne;
          [|intros <-; apply Hk; unfold adapt_keywords;
            rewrite !elem_of_cons; tauto]).
  reflexivity.
Qed.

(** C10: when [kwargs] holds a keyword that is not an adaptation
    parameter, [set_adapt_params] raises [TypeError], and the object it
    leaves has every adaptation parameter that [kwargs] names set to the
    given value. *)
Theorem C10_set_adapt_params_not_atomic (self : adaptive)
    (kwargs : gmap string float) (k : string) :
  k ∉ adapt_keywords →
  is_Some (kwargs !! k) →
  ∃ msg self',
    set_adapt_params [] kwargs self = (Raise (TypeError msg), self')
    ∧ covar_scale_multiplier self'
      = default (covar_scale_multiplier self) (kwargs !! "covar_scale_multiplier")
    ∧ covar_scale_factor self'
      = default (covar_scale_factor self) (kwargs !! "covar_scale_factor")
    ∧ covar_scale_factor_max self'
      = default (covar_scale_factor_max self) (kwargs !! "covar_scale_factor_max")
    ∧ covar_scale_factor_min self'
      = default (covar_scale_factor_min self) (kwargs !! "covar_scale_factor_min")
    ∧ force_acceptance_max self'
      = default (force_acceptance_max self) (kwargs !! "force_acceptance_max")
    ∧ force_acceptance_min self'
      = default (force_acceptance_min self) (kwargs !! "force_acceptance_min")
    ∧ damping self' = default (damping self) (kwargs !! "damping").
Proof.
  intros Hk Hin.
  unfold set_adapt_params. unfold_M. cbn -[pop].
  repeat (rewrite pop_spec; cbn -[pop]).
  pose proof (leftover_keeps_other_keys kwargs k Hk) as Hleft. cbn in Hleft.
  rewrite bool_decide_eq_false_2.
  2: { intros Hempty. rewrite Hempty, lookup_empty in Hleft.
       rewrite <- Hleft in Hin. by destruct Hin. }
  cbn. do 2 eexists. split; [reflexivity|]. cbn.
  repeat (rewrite lookup_delete_ne by done).
  repeat split; reflexivity.
Qed.

End Adaptation.

(** The instance of C5 at the second call of [adapt()] on the
    two-dimensional example chain: [a = 1/2], the last run is
    [[0; 0]; [2; 4]] with covariance [[2; 4]; [4; 8]], the prior is the
    unit matrix, and [unscaled_sigma] becomes [[1.5; 2]; [2; 4.5]].  The
    older run, whose covariance is different, does not enter. *)
Lemma C5_adapt_witness :
  AdaptiveMarkovChain.adapt_count
    (snd (AdaptiveMarkovChain.adapt Fixture.lib Fixture.adaptive_chain_second_call))
  = 2%nat
  ∧ AdaptiveMarkovChain.unscaled_sigma
      (snd (AdaptiveMarkovChain.adapt Fixture.lib Fixture.adaptive_chain_second_call))
    = [[1.5; 2]; [2; 4.5]]
  ∧ ((AdaptiveMarkovChain.covar_scale_multiplier Fixture.adaptive_chain_second_call
      =? 0) = false →
     fst (AdaptiveMarkovChain.adapt Fixture.lib Fixture.adaptive_chain_second_call)
     = Ok tt).
Proof.
  apply (C5_adapt_damped_update Fixture.lib Fixture.adaptive_chain_second_call 2
           [History.mk_run [[5; 5]; [7; 9]; [5; 5]] 1]
           [[0; 0]; [2; 4]] 2 2 1); try reflexivity.
  repeat constructor.
Defined.

(** The same call evaluated: the result is the damped mean of the prior
    and of the covariance of the last run, not the covariance alone and
    not that of the whole history. *)
Example adapt_second_call :
  Fixture.sample_cov [[0; 0]; [2; 4]] = [[2; 4]; [4; 8]]
  ∧ AdaptiveMarkovChain.unscaled_sigma
      (snd (AdaptiveMarkovChain.adapt Fixture.lib Fixture.adaptive_chain_second_call))
    = [[1.5; 2]; [2; 4.5]]
  ∧ fst (AdaptiveMarkovChain.adapt Fixture.lib Fixture.adaptive_chain_second_call)
    = Ok tt.
Proof. repeat split; vm_compute; reflexivity. Qed.

(** The instance of C10 at [set_adapt_params(damping = 0.75, bogus = 1.)]
    on the example chain, whose damping is [0.5] before the call. *)
Lemma C10_set_adapt_params_witness :
  ∃ msg self',
    AdaptiveMarkovChain.set_adapt_params []
      (<["damping" := 0.75]> {["bogus" := 1]}) Fixture.adaptive_chain
    = (Raise (TypeError msg), self')
    ∧ AdaptiveMarkovChain.covar_scale_multiplier self' = 1.5
    ∧ AdaptiveMarkovChain.covar_scale_factor self' = 1
    ∧ AdaptiveMarkovChain.covar_scale_factor_max self' = 100
    ∧ AdaptiveMarkovChain.covar_scale_factor_min self' = 0.0001
    ∧ AdaptiveMarkovChain.force_acceptance_max self' = 0.35
    ∧ AdaptiveMarkovChain.force_acceptance_min self' = 0.15
    ∧ AdaptiveMarkovChain.damping self' = 0.75.
Proof.
  assert (H := C10_set_adapt_params_not_atomic Fixture.adaptive_chain
                 (<["damping" := 0.75]> {["bogus" := 1]}) "bogus").
  vm_compute in H. vm_compute. apply H.
  - intros Hin. apply list_elem_of_In in Hin. vm_compute in Hin.
    repeat destruct Hin as [Hin|Hin]; try discriminate Hin. exact Hin.
  - exists 1. reflexivity.
Defined.

(** ** The PMC update *)

Section PMCUpdate.

Import PMC.

Variable density : vector → matrix → vector → float.
Variable unusable : float * vector * matrix → bool.

Lemma read_components_frame (cs : list loc) :
  ∀ (h : heap) r h', mapM read_component cs h = (r, h') → h' = h.
Proof.
  induction cs as [|c cs IH]; intros h r h'; cbn [mapM]; unfold_M.
  - intros [= _ <-]. reflexivity.
  - unfold read_component at 1.
    destruct (h !! c) as [[mu sigma|]|]; try (intros [= _ <-]; reflexivity).
    destruct (mapM read_component cs h) as [[comps|e] h1] eqn:Hrest;
      apply IH in Hrest; intros [= _ <-]; assumption.
Qed.

Lemma read_components_ok (cs : list loc) (h : heap) :
  Forall (fun c => ∃ mu sigma, h !! c = Some (Component mu sigma)) cs →
  ∃ comps, mapM read_component cs h = (Ok comps, h)
           ∧ length comps = length cs
           ∧ ∀ k c, cs !! k = Some c →
               ∃ mu sigma, comps !! k = Some (mu, sigma)
                           ∧ h !! c = Some (Component mu sigma).
Proof.
  induction 1 as [|c cs (mu & sigma & Hc) _ (comps & Hcomps & Hlen & Hk)];
    cbn [mapM]; unfold_M.
  - exists []. repeat split. intros k c Hk. discriminate.
  - unfold read_component at 1. rewrite Hc, Hcomps.
    exists ((mu, sigma) :: comps). repeat split; [cbn; congruence|].
    intros [|k] c' Hc'; cbn in Hc'.
    + injection Hc' as <-. eauto.
    + apply Hk, Hc'.
Qed.

(** Creating a list of objects: the store only grows, and the new
    objects sit at addresses that were not in use. *)
Lemma alloc_all (objs : list obj) :
  ∀ h : heap, ∃ ls h',
    mapM alloc objs h = (Ok ls, h')
    ∧ h ⊆ h'
    ∧ length ls = length objs
    ∧ ∀ k l, ls !! k = Some l → h !! l = None ∧ h' !! l = objs !! k.
Proof.
  induction objs as [|o objs IH]; intros h; cbn [mapM]; unfold_M.
  - exists [], h. split; [reflexivity|]. split; [reflexivity|].
    split; [reflexivity|]. intros k l Hk. discriminate.
  - unfold alloc at 1.
    assert (Hfresh : h !! fresh (dom h) = None)
      by apply not_elem_of_dom, is_fresh.
    destruct (IH (<[fresh (dom h) := o]> h)) as (ls & h' & -> & Hsub & Hlen & Hk).
    exists (fresh (dom h) :: ls), h'.
    split; [reflexivity|]. split.
    { etrans; [apply insert_subseteq, Hfresh|exact Hsub]. }
    split; [cbn; congruence|].
    intros [|k] l Hl; cbn in Hl.
    + injection Hl as <-. split; [assumption|]. cbn.
      eapply lookup_weaken; [apply lookup_insert_eq|exact Hsub].
    + destruct (Hk k l Hl) as [Hnone Hobj]. split; [|exact Hobj].
      destruct (decide (fresh (dom h) = l)) as [<-|Hne].
      * rewrite lookup_insert_eq in Hnone. discriminate.
      * rewrite lookup_insert_ne in Hnone by assumption. exact Hnone.
Qed.

(** A pruned component of the M-step. *)
Lemma m_step_pruned (samples : list vector) (comps : list (vector * matrix))
    (ws weights : vector) (latent : option (list nat)) (rb : bool)
    (mincount k : nat) :
  pruned latent mincount k = true →
  (k < length comps)%nat →
  snd (m_step density unusable samples comps ws weights latent rb mincount) !! k = Some 0
  ∧ fst (m_step density unusable samples comps ws weights latent rb mincount) !! k
    = comps !! k.
Proof.
  intros Hdead Hk. unfold m_step. cbn [fst snd]. split.
  - change (map ?f ?l) with (f <$> l).
    rewrite list_lookup_fmap, lookup_seq_lt by assumption.
    cbn. rewrite Hdead. reflexivity.
  - rewrite list_lookup_imap. destruct (comps !! k); cbn; [|reflexivity].
    rewrite Hdead. reflexivity.
Qed.

(** What a call that passes the validation returns. *)
Lemma gaussian_pmc_returns (samples : list vector) (proposal : loc)
    (weights : option vector) (latent : option (list nat)) (rb : bool)
    (mincount : nat) (h : heap) (cs : list loc) (ws : vector) :
  (rb = true ∨ is_Some latent) →
  (mincount = 0%nat ∨ is_Some latent) →
  h !! proposal = Some (Mixture cs ws) →
  Forall (fun c => ∃ mu sigma, h !! c = Some (Component mu sigma)) cs →
  ∃ comps new_cs l' h',
    mapM read_component cs h = (Ok comps, h)
    ∧ gaussian_pmc density unusable samples proposal weights latent rb mincount h = (Ok l', h')
    ∧ h ⊆ h'
    ∧ length comps = length cs
    ∧ length new_cs = length cs
    ∧ h !! l' = None
    ∧ h' !! l' = Some
        (Mixture new_cs
           (snd (m_step density unusable samples comps ws
                   (default (replicate (length samples) 1) weights)
                   latent rb mincount)))
    ∧ ∀ k c, new_cs !! k = Some c →
        h !! c = None
        ∧ h' !! c = (fun p => Component (fst p) (snd p)) <$>
            (fst (m_step density unusable samples comps ws
                    (default (replicate (length samples) 1) weights)
                    latent rb mincount) !! k).
Proof.
  intros Hrb Hmin Hprop Hcs.
  destruct (read_components_ok cs h Hcs) as (comps & Hread & Hlen & _).
  unfold gaussian_pmc.
  assert (Hv1 : negb rb && negb (bool_decide (is_Some latent)) = false).
  { destruct Hrb as [->|Hl]; [reflexivity|].
    rewrite (bool_decide_eq_true_2 _ Hl). apply andb_false_r. }
  assert (Hv2 : bool_decide (0 < mincount)%nat
                && negb (bool_decide (is_Some latent)) = false).
  { destruct Hmin as [->|Hl]; [reflexivity|].
    rewrite (bool_decide_eq_true_2 _ Hl). apply andb_false_r. }
  rewrite Hv1, Hv2. unfold_M. unfold read_mixture. rewrite Hprop, Hread.
  destruct (m_step _ _ _ _ _ _ _ _) as [new_params new_weights] eqn:Hstep.
  cbn [fst snd].
  assert (Hlen_new : ∀ new_cs h1,
            mapM alloc (map (fun c => Component (fst c) (snd c)) new_params) h
            = (Ok new_cs, h1) → length new_cs = length new_params).
  { intros new_cs h1 Halloc.
    destruct (alloc_all (map (fun c => Component (fst c) (snd c)) new_params) h)
      as (ls & h2 & Heq & _ & Hl & _).
    rewrite Heq in Halloc. injection Halloc as <- <-.
    rewrite Hl. apply length_map. }
  destruct (alloc_all (map (fun c => Component (fst c) (snd c)) new_params) h)
    as (new_cs & h1 & Halloc & Hsub & _ & Hnew).
  specialize (Hlen_new _ _ Halloc). rewrite Halloc.
  unfold alloc.
  assert (Hfresh : h1 !! fresh (dom h1) = None)
    by apply not_elem_of_dom, is_fresh.
  exists comps, new_cs, (fresh (dom h1)),
    (<[fresh (dom h1) := Mixture new_cs new_weights]> h1).
  rewrite !Hstep. cbn [fst snd].
  split; [reflexivity|]. split; [reflexivity|]. split.
  { etrans; [exact Hsub|apply insert_subseteq, Hfresh]. }
  split; [exact Hlen|].
  split.
  { rewrite Hlen_new, <- Hlen. apply (f_equal fst) in Hstep. cbn in Hstep.
    rewrite <- Hstep. apply length_imap. }
  split.
  { destruct (h !! fresh (dom h1)) eqn:Hold; [|reflexivity].
    eapply lookup_weaken in Hold; [|exact Hsub]. congruence. }
  split; [apply lookup_insert_eq|].
  intros k c Hc. destruct (Hnew k c Hc) as [Hnone Hobj].
  split; [assumption|].
  rewrite lookup_insert_ne.
  - rewrite Hobj. change (map ?f ?l) with (f <$> l).
    apply list_lookup_fmap.
  - intros Heq. rewrite Heq in Hfresh.
    rewrite Hobj in Hfresh.
    change (map ?f ?l) with (f <$> l) in Hfresh.
    rewrite list_lookup_fmap in Hfresh.
    assert (is_Some (new_params !! k)) as [p Hp].
    { apply lookup_lt_is_Some. apply lookup_lt_Some in Hc. lia. }
    rewrite Hp in Hfresh. discriminate.
Qed.

End PMCUpdate.

(** ** Further properties of [run] *)

Section RunProperties.

Context {R : Type}.
Variable np : Numpy.lib.
Variable rand : R -> float * R.

Local Abbreviation chain := (MarkovChain.t (R := R)).

(** A transition changes the current point and the world only. *)
Lemma transition_static (self0 self : chain) r self' :
  transition np rand (select_log_rho self0) self = (r, self') →
  hist self' = hist self ∧ proposal self' = proposal self
  ∧ target self' = target self ∧ points self' = points self.
Proof.
  unfold transition. unfold_M. cbn.
  destruct (propose _ _ _) as [x r0]. cbn.
  destruct (select_log_rho self0 x _) as [[v|e] s1] eqn:Hv; cbn;
    apply select_log_rho_frame in Hv;
    destruct Hv as (Hh & Hc & Hp & Ht & Hpts); cbn in *.
  2: { intros [= <- <-]. done. }
  destruct (is_nan v); cbn. { intros [= <- <-]. done. }
  destruct (0 <=? v); cbn. { intros [= <- <-]. done. }
  destruct (rand _) as [u r']. cbn.
  destruct (np_log np u <=? v); cbn; intros [= <- <-]; done.
Qed.

(** A rejected move leaves the current point where it was. *)
Lemma transition_rejected (self0 self self' : chain) :
  transition np rand (select_log_rho self0) self = (Ok false, self') →
  current self' = current self.
Proof.
  unfold transition. unfold_M. cbn.
  destruct (propose _ _ _) as [x r0]. cbn.
  destruct (select_log_rho self0 x _) as [[v|e] s1] eqn:Hv; cbn;
    apply select_log_rho_frame in Hv;
    destruct Hv as (Hh & Hc & Hp & Ht & Hpts); cbn in *.
  2: { intros [=]. }
  destruct (is_nan v); cbn. { intros [=]. }
  destruct (0 <=? v); cbn. { intros [=]. }
  destruct (rand _) as [u r']. cbn.
  destruct (np_log np u <=? v); cbn; intros [= <-]; done.
Qed.

Lemma trajectory_static (self0 : chain) (n : nat) :
  ∀ (self : chain) r self',
    trajectory np rand (select_log_rho self0) n self = (r, self') →
    hist self' = hist self ∧ proposal self' = proposal self
    ∧ target self' = target self ∧ points self' = points self.
Proof.
  induction n as [|n IH]; intros self r self'; cbn [trajectory]; unfold_M.
  - intros [= <- <-]. done.
  - destruct (transition _ _ _ _) as [[a|e] s1] eqn:Ht;
      apply transition_static in Ht.
    2: { intros [= <- <-]. exact Ht. }
    destruct (trajectory _ _ _ n s1) as [[rest|e] s2] eqn:Hrest;
      apply IH in Hrest; intros [= <- <-];
      destruct Ht as (H1 & H2 & H3 & H4);
      destruct Hrest as (G1 & G2 & G3 & G4);
      repeat split; congruence.
Qed.

Lemma trajectory_S (glr : vector → M chain float) (n : nat) (self : chain) :
  trajectory np rand glr (S n) self =
  match transition np rand glr self with
  | (Ok a, s1) =>
      match trajectory np rand glr n s1 with
      | (Ok rest, s2) => (Ok ((a, current s1) :: rest), s2)
      | (Raise e, s2) => (Raise e, s2)
      end
  | (Raise e, s1) => (Raise e, s1)
  end.
Proof.
  cbn [trajectory]. unfold_M.
  destruct (transition _ _ _ _) as [[a|e] s1]; [|reflexivity].
  cbn. destruct (trajectory _ _ _ n s1) as [[rest|e] s2]; reflexivity.
Qed.

Lemma trajectory_last (glr : vector → M chain float) (n : nat) :
  ∀ (self self' : chain) tr,
    trajectory np rand glr (S n) self = (Ok tr, self') →
    snd <$> last tr = Some (current self').
Proof.
  induction n as [|n IH]; intros self self' tr.
  - cbn [trajectory]. unfold_M.
    destruct (transition _ _ _ _) as [[a|e] s1]; [|discriminate].
    intros [= <- <-]. reflexivity.
  - rewrite trajectory_S.
    destruct (transition _ _ _ _) as [[a|e] s1]; [|discriminate].
    destruct (trajectory np rand glr (S n) s1) as [[rest|e] s2] eqn:Hrest;
      [|discriminate].
    intros [= <- <-]. pose proof (IH _ _ _ Hrest) as Hlast.
    destruct rest as [|y rest]; [discriminate|]. exact Hlast.
Qed.

Lemma trajectory_rejected_rows (self0 : chain) (n : nat) :
  ∀ (self self' : chain) tr,
    trajectory np rand (select_log_rho self0) n self = (Ok tr, self') →
    ∀ i x, tr !! i = Some (false, x) →
           x = match i with
               | 0 => current self
               | S j => default (current self) (snd <$> tr !! j)
               end.
Proof.
  induction n as [|n IH]; intros self self' tr; cbn [trajectory]; unfold_M.
  - intros [= <- <-] i x Hi. destruct i; discriminate.
  - destruct (transition _ _ _ _) as [[a|e] s1] eqn:Ht; [|discriminate].
    destruct (trajectory _ _ _ n s1) as [[rest|e] s2] eqn:Hrest; [|discriminate].
    intros [= <- <-] [|i] x Hi; cbn in Hi.
    + injection Hi as -> <-. eapply transition_rejected, Ht.
    + rewrite (IH _ _ _ Hrest _ _ Hi).
      destruct i as [|j]; cbn; [reflexivity|].
      destruct (rest !! j) eqn:Hj; [reflexivity|].
      apply lookup_ge_None_1 in Hj. apply lookup_lt_Some in Hi. lia.
Qed.

(** X1: a call of [run] that raises, for whatever reason, appends
    nothing to the history: the rows collected before the failure are
    lost, and the proposal and the target are as before. *)
Theorem run_failure_appends_nothing (N : nat) (self s : chain) (e : exn) :
  run np rand N self = (Raise e, s) →
  hist s = hist self ∧ proposal s = proposal self ∧ target s = target self.
Proof.
  rewrite run_as_trajectory.
  destruct (trajectory _ _ _ _ _) as [[tr|e'] s1] eqn:Htr; [discriminate|].
  intros [= _ <-]. apply trajectory_static in Htr. tauto.
Qed.

(** X3: after a call [run(N)] with [N >= 1] that returns, the current
    point of the chain is the last row of the run it appended. *)
Theorem run_current_is_last_row (N : nat) (self s : chain) :
  (1 ≤ N)%nat →
  run np rand N self = (Ok tt, s) →
  ∃ rows count, hist s = hist self ++ [History.mk_run rows count]
                ∧ last rows = Some (current s).
Proof.
  intros HN. rewrite run_as_trajectory.
  destruct (trajectory _ _ _ _ _) as [[tr|e'] s1] eqn:Htr; [|discriminate].
  intros [= <-]. exists (map snd tr), (accepted_moves tr).
  pose proof (trajectory_static _ _ _ _ _ Htr) as (Hh & _).
  split; [cbn; unfold History.append; rewrite Hh; reflexivity|].
  destruct N as [|n]; [lia|].
  apply trajectory_last in Htr. cbn.
  change (map snd tr) with (snd <$> tr). rewrite fmap_last. exact Htr.
Qed.

(** X4: the rows of a run can be labelled accepted or rejected so that
    the accept count is the number of accepted rows and every rejected
    row repeats the row before it (the point the chain stood at before
    the call, for the first row). *)
Theorem run_rejection_repeats_row (N : nat) (self s : chain) :
  run np rand N self = (Ok tt, s) →
  ∃ labelled : list (bool * vector),
    hist s = hist self
             ++ [History.mk_run (map snd labelled)
                   (length (filter (fun o => fst o = true) labelled))]
    ∧ length labelled = N
    ∧ ∀ i x, labelled !! i = Some (false, x) →
             x = match i with
                 | 0 => current self
                 | S j => default (current self) (map snd labelled !! j)
                 end.
Proof.
  rewrite run_as_trajectory.
  destruct (trajectory _ _ _ _ _) as [[tr|e'] s1] eqn:Htr; [|discriminate].
  intros [= <-]. exists tr.
  pose proof (trajectory_static _ _ _ _ _ Htr) as (Hh & _).
  split; [cbn; unfold History.append; rewrite Hh; reflexivity|].
  split; [eapply trajectory_length, Htr|].
  intros i x Hi. rewrite (trajectory_rejected_rows _ _ _ _ _ Htr _ _ Hi).
  destruct i as [|j]; [reflexivity|].
  change (map snd tr) with (snd <$> tr). rewrite list_lookup_fmap. reflexivity.
Qed.

End RunProperties.

(** ** Composition of runs and evaluations of the target *)

Section RunComposition.

Context {R : Type}.
Variable np : Numpy.lib.
Variable rand : R -> float * R.

Local Abbreviation chain := (MarkovChain.t (R := R)).

Lemma select_log_rho_set_hist (self0 : chain) (h : History.t) (x : vector)
    (s : chain) :
  select_log_rho self0 x (set_hist h s) =
  (let (r, s') := select_log_rho self0 x s in (r, set_hist h s')).
Proof.
  unfold select_log_rho. destruct (symmetric (proposal self0)).
  - unfold _get_log_rho_metropolis, in_world. unfold_M. cbn.
    destruct (target s x (world s)) as [[a|e] w1]; cbn; [|reflexivity].
    destruct (target s (current s) w1) as [[b|e] w2]; reflexivity.
  - unfold _get_log_rho_metropolis_hasting, points_last. unfold_M. cbn.
    destruct (points s) as [ps|]; [|reflexivity].
    destruct (last ps); reflexivity.
Qed.

Lemma transition_set_hist (self0 : chain) (h : History.t) (s : chain) :
  transition np rand (select_log_rho self0) (set_hist h s) =
  (let (r, s') := transition np rand (select_log_rho self0) s in
   (r, set_hist h s')).
Proof.
  unfold transition. unfold_M. cbn.
  destruct (propose _ _ _) as [x r0]. cbn.
  change (set_world ?w (set_hist h s)) with (set_hist h (set_world w s)).
  rewrite select_log_rho_set_hist.
  destruct (select_log_rho self0 x _) as [[v|e] s1]; cbn; [|reflexivity].
  destruct (is_nan v); cbn; [reflexivity|].
  destruct (0 <=? v); cbn; [reflexivity|].
  destruct (rand _) as [u r']. cbn.
  destruct (np_log np u <=? v); reflexivity.
Qed.

Lemma trajectory_set_hist (self0 : chain) (h : History.t) (n : nat) :
  ∀ s : chain,
    trajectory np rand (select_log_rho self0) n (set_hist h s) =
    (let (r, s') := trajectory np rand (select_log_rho self0) n s in
     (r, set_hist h s')).
Proof.
  induction n as [|n IH]; intros s; [reflexivity|].
  rewrite !trajectory_S, transition_set_hist.
  destruct (transition _ _ _ s) as [[a|e] s1]; [|reflexivity].
  rewrite IH.
  destruct (trajectory _ _ _ n s1) as [[rest|e] s2]; reflexivity.
Qed.

Lemma trajectory_app (glr : vector → M chain float) (n1 n2 : nat) :
  ∀ self : chain,
    trajectory np rand glr (n1 + n2) self =
    match trajectory np rand glr n1 self with
    | (Ok tr1, s1) =>
        match trajectory np rand glr n2 s1 with
        | (Ok tr2, s2) => (Ok (tr1 ++ tr2), s2)
        | (Raise e, s2) => (Raise e, s2)
        end
    | (Raise e, s1) => (Raise e, s1)
    end.
Proof.
  induction n1 as [|n1 IH]; intros self.
  - cbn. unfold_M.
    destruct (trajectory _ _ _ n2 self) as [[tr2|e] s2]; reflexivity.
  - cbn [Nat.add]. rewrite !trajectory_S.
    destruct (transition _ _ _ _) as [[a|e] s1]; [|reflexivity].
    rewrite IH.
    destruct (trajectory _ _ _ n1 s1) as [[tr1|e] s2]; [|reflexivity].
    destruct (trajectory _ _ _ n2 s2) as [[tr2|e] s3]; reflexivity.
Qed.

Lemma accepted_moves_app (tr1 tr2 : list (bool * vector)) :
  accepted_moves (tr1 ++ tr2) = (accepted_moves tr1 + accepted_moves tr2)%nat.
Proof. unfold accepted_moves. rewrite filter_app, length_app. reflexivity. Qed.

(** X2: two calls [run(N1)], [run(N2)] leave the chain at the point, and
    the generator and the target in the state, that one call
    [run(N1 + N2)] leaves them in; the rows of the two runs, one after
    the other, are the rows of the single run, and the accept counts add
    up. *)
Theorem run_composes (N1 N2 : nat) (self s1 s2 : chain) :
  run np rand N1 self = (Ok tt, s1) →
  run np rand N2 s1 = (Ok tt, s2) →
  ∃ s rows1 count1 rows2 count2,
    run np rand (N1 + N2) self = (Ok tt, s)
    ∧ hist s1 = hist self ++ [History.mk_run rows1 count1]
    ∧ hist s2 = hist self ++ [History.mk_run rows1 count1;
                              History.mk_run rows2 count2]
    ∧ hist s = hist self ++ [History.mk_run (rows1 ++ rows2) (count1 + count2)]
    ∧ current s = current s2
    ∧ world s = world s2.
Proof.
  rewrite !run_as_trajectory.
  destruct (trajectory _ _ _ N1 self) as [[tr1|e] t1] eqn:Htr1; [|discriminate].
  intros [= <-].
  pose proof (trajectory_static _ _ _ _ _ _ _ Htr1) as (Hh1 & Hp1 & _).
  assert (Hsel : select_log_rho
                   (set_hist (History.append (hist t1) (map snd tr1)
                                (accepted_moves tr1)) t1)
                 = select_log_rho self).
  { unfold select_log_rho. cbn. rewrite Hp1. reflexivity. }
  rewrite Hsel, trajectory_set_hist.
  destruct (trajectory _ _ _ N2 t1) as [[tr2|e] t2] eqn:Htr2; [|discriminate].
  intros [= <-].
  pose proof (trajectory_static _ _ _ _ _ _ _ Htr2) as (Hh2 & _).
  rewrite trajectory_app, Htr1, Htr2.
  eexists _, (map snd tr1), (accepted_moves tr1), (map snd tr2), (accepted_moves tr2).
  split; [reflexivity|].
  cbn. unfold History.append. rewrite Hh2, Hh1, map_app, accepted_moves_app.
  rewrite <- !app_assoc. repeat split; reflexivity.
Qed.

(** The merged target evaluates the user's target inside the support
    only, and does not touch the generator. *)
Lemma merged_target_calls (f : vector → res float) (indicator : vector → bool)
    (x : vector) (w w' : World (R := R)) r :
  _merge_target_with_indicator (observed f) (Some indicator) x w = (r, w') →
  rng w' = rng w ∧ calls_within (fun y => indicator y = true) w w'.
Proof.
  cbn. destruct (indicator x) eqn:Hx; unfold observed; cbn.
  - intros [= _ <-]. split; [reflexivity|]. exists [x]. split; [reflexivity|].
    constructor; [assumption|constructor].
  - unfold_M. intros [= _ <-]. split; [reflexivity|]. exists [].
    rewrite app_nil_r. split; [reflexivity|constructor].
Qed.

Lemma calls_within_trans (P : vector → Prop) (w1 w2 w3 : World (R := R)) :
  calls_within P w1 w2 → calls_within P w2 w3 → calls_within P w1 w3.
Proof.
  intros (n1 & H1 & F1) (n2 & H2 & F2). exists (n1 ++ n2).
  rewrite H2, H1, app_assoc. split; [reflexivity|]. apply Forall_app; done.
Qed.

Lemma calls_within_refl (P : vector → Prop) (w w' : World (R := R)) :
  target_calls w' = target_calls w → calls_within P w w'.
Proof.
  intros H. exists []. rewrite app_nil_r. split; [assumption|constructor].
Qed.

Lemma transition_calls (f : vector → res float) (indicator : vector → bool)
    (self0 self : chain) r self' :
  target self = _merge_target_with_indicator (observed f) (Some indicator) →
  transition np rand (select_log_rho self0) self = (r, self') →
  calls_within (fun y => indicator y = true) (world self) (world self').
Proof.
  intros Htarget. unfold transition. unfold_M. cbn.
  destruct (propose _ _ _) as [x r0]. cbn.
  assert (Hglr : ∀ s r1 s1, target s = target self →
            select_log_rho self0 x s = (r1, s1) →
            calls_within (fun y => indicator y = true) (world s) (world s1)).
  { intros s r1 s1 Hts. unfold select_log_rho.
    destruct (symmetric (proposal self0)).
    - unfold _get_log_rho_metropolis, in_world. unfold_M. cbn.
      rewrite Hts, Htarget.
      assert (Hcall : ∀ y (w : World (R := R)) r2 w2,
                _merge_target_with_indicator (observed f) (Some indicator) y w
                = (r2, w2) →
                calls_within (fun y => indicator y = true) w w2).
      { intros y w r2 w2 Hy. eapply merged_target_calls, Hy. }
      remember (_merge_target_with_indicator (R := R) (observed f)
                  (Some indicator)) as tgt eqn:Htgt.
      clear Htgt.
      destruct (tgt x (world s)) as [[a|e] w1] eqn:Ha; apply Hcall in Ha; cbn.
      2: { intros [= _ <-]. exact Ha. }
      rewrite Hts, Htarget.
      destruct (tgt (current s) w1) as [[b|e] w2] eqn:Hb; apply Hcall in Hb;
        cbn; intros [= _ <-]; eapply calls_within_trans; eassumption.
    - destruct (metropolis_hasting_raises x s) as (e & -> & _).
      intros [= _ <-]. apply calls_within_refl. reflexivity. }
  destruct (select_log_rho self0 x _) as [[v|e] s1] eqn:Hv; cbn.
  2: { intros [= _ <-]. apply Hglr in Hv; [exact Hv|reflexivity]. }
  pose proof (select_log_rho_frame _ _ _ _ _ Hv) as _.
  apply Hglr in Hv; [|reflexivity]. cbn in Hv.
  destruct (is_nan v); cbn. { intros [= _ <-]. exact Hv. }
  destruct (0 <=? v); cbn. { intros [= _ <-]. exact Hv. }
  destruct (rand _) as [u r']. cbn.
  destruct (np_log np u <=? v); cbn; intros [= _ <-]; exact Hv.
Qed.

(** X5: with an indicator, every point at which the user's target is
    evaluated during [run(N)] satisfies the indicator, whether the call
    returns or raises. *)
Theorem run_evaluates_target_in_support_only (f : vector → res float)
    (indicator : vector → bool) (N : nat) (self s : chain) r :
  target self = _merge_target_with_indicator (observed f) (Some indicator) →
  run np rand N self = (r, s) →
  ∃ new, target_calls (world s) = target_calls (world self) ++ new
         ∧ Forall (fun y => indicator y = true) new.
Proof.
  intros Htarget. rewrite run_as_trajectory.
  assert (Htraj : ∀ n (s0 : chain) r0 s0',
            target s0 = target self →
            trajectory np rand (select_log_rho self) n s0 = (r0, s0') →
            calls_within (fun y => indicator y = true) (world s0) (world s0')).
  { induction n as [|n IH]; intros s0 r0 s0' Hts.
    - cbn. unfold_M. intros [= _ <-]. apply calls_within_refl. reflexivity.
    - rewrite trajectory_S.
      assert (Hs0 : target s0
                    = _merge_target_with_indicator (observed f) (Some indicator))
        by (rewrite Hts; exact Htarget).
      destruct (transition _ _ _ s0) as [[a|e] t1] eqn:Ht.
      2: { intros [= _ <-]. eapply transition_calls; [exact Hs0|exact Ht]. }
      pose proof (transition_static _ _ _ _ _ _ Ht) as (_ & _ & Htt & _).
      eapply transition_calls in Ht; [|exact Hs0].
      assert (Ht1 : target t1 = target self) by (rewrite Htt; exact Hts).
      destruct (trajectory _ _ _ n t1) as [[rest|e] t2] eqn:Hrest;
        apply IH in Hrest; try exact Ht1;
        intros [= _ <-]; eapply calls_within_trans; eassumption. }
  destruct (trajectory _ _ _ N self) as [[tr|e] t1] eqn:Htr;
    apply Htraj in Htr; try reflexivity; intros [= _ <-]; exact Htr.
Qed.

End RunComposition.

(** ** The cost of a run *)

Section TargetEvaluations.

Context {R : Type}.
Variable np : Numpy.lib.
Variable rand : R -> float * R.

Local Abbreviation chain := (MarkovChain.t (R := R)).

Lemma transition_two_calls (f : vector → res float) (self0 self self' : chain)
    (a : bool) :
  symmetric (proposal self0) = true →
  target self = observed f →
  transition np rand (select_log_rho self0) self = (Ok a, self') →
  length (target_calls (world self'))
  = (length (target_calls (world self)) + 2)%nat.
Proof.
  intros Hsym Htarget. unfold select_log_rho. rewrite Hsym.
  destruct self as [c h pts p w t]. cbn in Htarget. subst t.
  unfold transition, _get_log_rho_metropolis, in_world, observed.
  unfold_M. cbn.
  destruct (propose p c (rng w)) as [x r0]. cbn.
  destruct (f x) as [v1|e]; cbn; [|discriminate].
  destruct (f c) as [v2|e]; cbn; [|discriminate].
  destruct (is_nan (v1 - v2)); cbn; [discriminate|].
  destruct (0 <=? v1 - v2); cbn.
  { intros [= _ <-]. cbn. rewrite !length_app. cbn. lia. }
  destruct (rand r0) as [u r']. cbn.
  destruct (np_log np u <=? v1 - v2); cbn; intros [= _ <-]; cbn;
    rewrite !length_app; cbn; lia.
Qed.

(** X6: without an indicator and with a symmetric proposal, a call
    [run(N)] that returns has evaluated the target exactly [2 * N] times:
    the value at the current point is computed again in every
    iteration. *)
Theorem run_evaluates_target_twice_per_iteration (f : vector → res float)
    (N : nat) (self s : chain) :
  symmetric (proposal self) = true →
  target self = observed f →
  run np rand N self = (Ok tt, s) →
  length (target_calls (world s))
  = (length (target_calls (world self)) + 2 * N)%nat.
Proof.
  intros Hsym Htarget. rewrite run_as_trajectory.
  assert (Htraj : ∀ n (s0 : chain) tr s0',
            target s0 = observed f →
            trajectory np rand (select_log_rho self) n s0 = (Ok tr, s0') →
            length (target_calls (world s0'))
            = (length (target_calls (world s0)) + 2 * n)%nat).
  { induction n as [|n IH]; intros s0 tr s0' Hts.
    - cbn. unfold_M. intros [= _ <-]. lia.
    - rewrite trajectory_S.
      destruct (transition _ _ _ s0) as [[a|e] t1] eqn:Ht; [|discriminate].
      pose proof (transition_static _ _ _ _ _ _ Ht) as (_ & _ & Htt & _).
      eapply transition_two_calls in Ht; [|exact Hsym|exact Hts].
      destruct (trajectory _ _ _ n t1) as [[rest|e] t2] eqn:Hrest;
        [|discriminate].
      apply IH in Hrest; [|rewrite Htt; exact Hts].
      intros [= _ <-]. lia. }
  destruct (trajectory _ _ _ N self) as [[tr|e] t1] eqn:Htr; [|discriminate].
  intros [= <-]. cbn. eapply Htraj; [exact Htarget|exact Htr].
Qed.

End TargetEvaluations.

(** Instances of the properties of [run] at the example chains. *)

Lemma run_failure_appends_nothing_witness :
  ∃ s, run Fixture.lib Fixture.scripted_rand 2 Fixture.chain_hits_nan
         = (Raise (ValueError "encountered NaN"), s)
       ∧ hist s = hist Fixture.chain_hits_nan
       ∧ proposal s = proposal Fixture.chain_hits_nan
       ∧ target s = target Fixture.chain_hits_nan.
Proof.
  eexists. split; [vm_compute; reflexivity|].
  eapply (run_failure_appends_nothing Fixture.lib Fixture.scripted_rand 2
            Fixture.chain_hits_nan).
  vm_compute. reflexivity.
Defined.

Lemma run_current_is_last_row_witness :
  ∃ s, run Fixture.lib Fixture.scripted_rand 3 Fixture.chain_three_steps = (Ok tt, s)
       ∧ ∃ rows count,
           hist s = hist Fixture.chain_three_steps ++ [History.mk_run rows count]
           ∧ last rows = Some (current s).
Proof.
  eexists. split; [vm_compute; reflexivity|].
  eapply (run_current_is_last_row Fixture.lib Fixture.scripted_rand 3
            Fixture.chain_three_steps); [lia|].
  vm_compute. reflexivity.
Defined.

Lemma run_rejection_repeats_row_witness :
  ∃ s, run Fixture.lib Fixture.scripted_rand 3 Fixture.chain_three_steps = (Ok tt, s)
       ∧ ∃ labelled : list (bool * vector),
           hist s = hist Fixture.chain_three_steps
                    ++ [History.mk_run (map snd labelled)
                          (length (filter (fun o => fst o = true) labelled))]
           ∧ length labelled = 3%nat
           ∧ ∀ i x, labelled !! i = Some (false, x) →
                    x = match i with
                        | 0 => current Fixture.chain_three_steps
                        | S j => default (current Fixture.chain_three_steps)
                                   (map snd labelled !! j)
                        end.
Proof.
  eexists. split; [vm_compute; reflexivity|].
  eapply (run_rejection_repeats_row Fixture.lib Fixture.scripted_rand 3
            Fixture.chain_three_steps).
  vm_compute. reflexivity.
Defined.

Lemma run_composes_witness :
  ∃ s1 s2 s rows1 count1 rows2 count2,
    run Fixture.lib Fixture.scripted_rand 1 Fixture.chain_three_steps = (Ok tt, s1)
    ∧ run Fixture.lib Fixture.scripted_rand 2 s1 = (Ok tt, s2)
    ∧ run Fixture.lib Fixture.scripted_rand (1 + 2) Fixture.chain_three_steps
      = (Ok tt, s)
    ∧ hist s1 = hist Fixture.chain_three_steps ++ [History.mk_run rows1 count1]
    ∧ hist s2 = hist Fixture.chain_three_steps
                ++ [History.mk_run rows1 count1; History.mk_run rows2 count2]
    ∧ hist s = hist Fixture.chain_three_steps
               ++ [History.mk_run (rows1 ++ rows2) (count1 + count2)]
    ∧ current s = current s2
    ∧ world s = world s2.
Proof.
  pose (s1 := snd (run Fixture.lib Fixture.scripted_rand 1
                      Fixture.chain_three_steps)).
  pose (s2 := snd (run Fixture.lib Fixture.scripted_rand 2 s1)).
  assert (H1 : run Fixture.lib Fixture.scripted_rand 1 Fixture.chain_three_steps
               = (Ok tt, s1)) by (vm_compute; reflexivity).
  assert (H2 : run Fixture.lib Fixture.scripted_rand 2 s1 = (Ok tt, s2))
    by (vm_compute; reflexivity).
  destruct (run_composes Fixture.lib Fixture.scripted_rand 1 2
              Fixture.chain_three_steps s1 s2 H1 H2)
    as (s & rows1 & count1 & rows2 & count2 & H).
  exists s1, s2, s, rows1, count1, rows2, count2.
  split; [exact H1|]. split; [exact H2|]. exact H.
Defined.

Lemma run_evaluates_target_in_support_only_witness :
  ∃ s new,
    run Fixture.lib Fixture.scripted_rand 1 Fixture.chain_leaving_support = (Ok tt, s)
    ∧ target_calls (world s)
      = target_calls (world Fixture.chain_leaving_support) ++ new
    ∧ Forall (fun y => Fixture.nonneg y = true) new.
Proof.
  pose (s := snd (run Fixture.lib Fixture.scripted_rand 1
                     Fixture.chain_leaving_support)).
  assert (H1 : run Fixture.lib Fixture.scripted_rand 1 Fixture.chain_leaving_support
               = (Ok tt, s)) by (vm_compute; reflexivity).
  destruct (run_evaluates_target_in_support_only Fixture.lib Fixture.scripted_rand
              Fixture.log_gauss Fixture.nonneg 1 Fixture.chain_leaving_support
              s (Ok tt) eq_refl H1) as (new & H).
  exists s, new. split; [exact H1|exact H].
Defined.

Lemma run_evaluates_target_twice_witness :
  ∃ s, run Fixture.lib Fixture.scripted_rand 3 Fixture.chain_three_steps = (Ok tt, s)
       ∧ length (target_calls (world s))
         = (length (target_calls (world Fixture.chain_three_steps)) + 2 * 3)%nat.
Proof.
  eexists. split; [vm_compute; reflexivity|].
  eapply (run_evaluates_target_twice_per_iteration Fixture.lib Fixture.scripted_rand
            Fixture.log_gauss 3 Fixture.chain_three_steps);
    [reflexivity|reflexivity|].
  vm_compute. reflexivity.
Defined.

(** ** Further properties of the adaptation parameters *)

Section AdaptParams.

Import AdaptiveMarkovChain.

Context {R : Type}.

Local Abbreviation adaptive := (AdaptiveMarkovChain.t (R := R)).

Lemma leftover_empty_iff (kwargs : gmap string float) :
  foldr delete kwargs (reverse adapt_keywords) = ∅ ↔ all_recognized kwargs.
Proof.
  split.
  - intros Hempty k Hk. destruct (decide (k ∈ adapt_keywords)) as [|Hno]; [done|].
    pose proof (leftover_keeps_other_keys kwargs k Hno) as Hleft.
    rewrite Hempty, lookup_empty in Hleft. rewrite <- Hleft in Hk.
    by destruct Hk.
  - intros Hall. apply map_eq. intros i. rewrite lookup_empty.
    destruct (decide (i ∈ adapt_keywords)) as [Hin|Hno].
    + unfold adapt_keywords in Hin. rewrite !elem_of_cons in Hin. cbn.
      destruct Hin as [->|[->|[->|[->|[->|[->|[->|Hin]]]]]]];
        [by simplify_map_eq..|].
      by apply elem_of_nil in Hin.
    + rewrite leftover_keeps_other_keys by assumption.
      destruct (kwargs !! i) eqn:Hi; [|reflexivity].
      exfalso. apply Hno, Hall. rewrite Hi. eauto.
Qed.

(** What [set_adapt_params] does when called with keywords only. *)
Lemma set_adapt_params_keywords (kwargs : gmap string float) (self : adaptive) :
  set_adapt_params [] kwargs self =
  (if bool_decide (foldr delete kwargs (reverse adapt_keywords) = ∅)
   then Ok tt
   else Raise (TypeError ("unexpected keyword(s): "
                          +:+ str_keys (foldr delete kwargs (reverse adapt_keywords)))),
   assign_params kwargs self).
Proof.
  unfold set_adapt_params, assign_params. unfold_M. cbn -[pop].
  repeat (rewrite pop_spec; cbn -[pop]).
  repeat (rewrite lookup_delete_ne by done).
  destruct (bool_decide _); reflexivity.
Qed.

(** X11: a positional argument makes [set_adapt_params] raise before it
    assigns anything, whatever the keywords are. *)
Theorem set_adapt_params_rejects_positional (args : list float)
    (kwargs : gmap string float) (self : adaptive) :
  args ≠ [] →
  set_adapt_params args kwargs self
  = (Raise (TypeError "keyword args only; try set_adapt_parameters(keyword = value)"),
     self).
Proof.
  intros Hargs. unfold set_adapt_params.
  rewrite bool_decide_eq_false_2 by assumption. reflexivity.
Qed.

(** X12: with keywords that are all adaptation parameters,
    [set_adapt_params] returns; the parameters named are set, the others
    keep their values, and neither [adapt_count], [unscaled_sigma] nor
    the chain with its proposal is touched. *)
Theorem set_adapt_params_assigns (kwargs : gmap string float) (self : adaptive) :
  all_recognized kwargs →
  set_adapt_params [] kwargs self = (Ok tt, assign_params kwargs self).
Proof.
  intros Hall. rewrite set_adapt_params_keywords.
  rewrite bool_decide_eq_true_2 by (apply leftover_empty_iff, Hall).
  reflexivity.
Qed.

(** X13: called with keywords only, [set_adapt_params] returns exactly
    when every keyword is an adaptation parameter. *)
Theorem set_adapt_params_returns_iff (kwargs : gmap string float)
    (self : adaptive) :
  fst (set_adapt_params [] kwargs self) = Ok tt ↔ all_recognized kwargs.
Proof.
  rewrite set_adapt_params_keywords. cbn [fst].
  rewrite <- leftover_empty_iff. case_bool_decide; split; try done.
Qed.

(** X14: with keywords that are all adaptation parameters, the
    constructor returns an object with [adapt_count = 0], the given
    parameters, the documented defaults for the others, and
    [unscaled_sigma = proposal.sigma / covar_scale_factor]. *)
Theorem init_assigns (base : MarkovChain.t (R := R))
    (kwargs : gmap string float) :
  all_recognized kwargs →
  __init__ base kwargs =
  Ok (mk_adaptive base 0
        (default 1.5 (kwargs !! "covar_scale_multiplier"))
        (default 1 (kwargs !! "covar_scale_factor"))
        (default 100 (kwargs !! "covar_scale_factor_max"))
        (default 0.0001 (kwargs !! "covar_scale_factor_min"))
        (default 0.35 (kwargs !! "force_acceptance_max"))
        (default 0.15 (kwargs !! "force_acceptance_min"))
        (default 0.5 (kwargs !! "damping"))
        (mat_div (MarkovChain.sigma (MarkovChain.proposal base))
                 (default 1 (kwargs !! "covar_scale_factor")))).
Proof.
  intros Hall. unfold __init__.
  repeat (rewrite pop_spec; cbn -[pop]).
  repeat (rewrite lookup_delete_ne by done).
  apply leftover_empty_iff in Hall. cbn in Hall. rewrite Hall.
  reflexivity.
Qed.

End AdaptParams.

(** ** Further properties of [adapt] *)

Section AdaptProperties.

Import AdaptiveMarkovChain.

Context {R : Type}.
Variable np : Numpy.lib.

Local Abbreviation adaptive := (AdaptiveMarkovChain.t (R := R)).

(** X7: when the most recent run has no rows (as after [run(0)]),
    [adapt()] raises [ZeroDivisionError] from the acceptance rate; the
    call has been counted, and nothing else has changed. *)
Theorem adapt_after_empty_run_raises (self : adaptive) (older : History.t)
    (count : nat) (p : float) :
  MarkovChain.hist (chain self) = older ++ [History.mk_run [] count] →
  py_pow np (S (adapt_count self)) (damping self) = Ok p →
  (p =? 0) = false →
  adapt np self
  = (Raise ZeroDivisionError, set_adapt_count (S (adapt_count self)) self).
Proof.
  intros Hhist Hpow Hp.
  assert (Hdiv : truediv 1 p = Ok (1 / p)) by (unfold truediv; rewrite Hp; done).
  assert (Hzero : ∀ n, truediv (float_of_nat n) (float_of_nat 0)
                       = Raise ZeroDivisionError) by reflexivity.
  unfold adapt. unfold_M. cbn -[truediv float_of_nat mat_add mat_scale].
  rewrite Hpow. cbn -[truediv float_of_nat mat_add mat_scale].
  rewrite Hdiv. cbn -[truediv float_of_nat mat_add mat_scale].
  unfold History.get_run_points, History.get_run_accept_count.
  rewrite Hhist, last_snoc. cbn -[truediv float_of_nat mat_add mat_scale].
  rewrite Hzero. reflexivity.
Qed.

(** X8: when [adapt()] returns, the covariance of the proposal is
    [covar_scale_factor * unscaled_sigma] for the values these
    attributes have after the call; the history, the current point, the
    target, the generator and the rest of the proposal are as before. *)
Theorem adapt_pushes_scaled_sigma (self s : adaptive) :
  adapt np self = (Ok tt, s) →
  MarkovChain.sigma (MarkovChain.proposal (chain s))
  = mat_scale (covar_scale_factor s) (unscaled_sigma s)
  ∧ MarkovChain.hist (chain s) = MarkovChain.hist (chain self)
  ∧ MarkovChain.current (chain s) = MarkovChain.current (chain self)
  ∧ MarkovChain.world (chain s) = MarkovChain.world (chain self)
  ∧ MarkovChain.target (chain s) = MarkovChain.target (chain self)
  ∧ MarkovChain.symmetric (MarkovChain.proposal (chain s))
    = MarkovChain.symmetric (MarkovChain.proposal (chain self))
  ∧ MarkovChain.propose (MarkovChain.proposal (chain s))
    = MarkovChain.propose (MarkovChain.proposal (chain self))
  ∧ MarkovChain.evaluate (MarkovChain.proposal (chain s))
    = MarkovChain.evaluate (MarkovChain.proposal (chain self)).
Proof.
  unfold adapt. unfold_M. cbn -[truediv float_of_nat mat_add mat_scale].
  destruct (py_pow _ _ _); cbn -[truediv float_of_nat mat_add mat_scale];
    [|discriminate].
  destruct (truediv 1 _); cbn -[truediv float_of_nat mat_add mat_scale];
    [|discriminate].
  destruct (History.get_run_points _);
    cbn -[truediv float_of_nat mat_add mat_scale]; [|discriminate].
  destruct (History.get_run_accept_count _);
    cbn -[truediv float_of_nat mat_add mat_scale]; [|discriminate].
  destruct (truediv _ _) as [rate|];
    cbn -[truediv float_of_nat mat_add mat_scale]; [|discriminate].
  destruct (mat_add _ _) as [new|];
    cbn -[truediv float_of_nat mat_add mat_scale]; [|discriminate].
  pose proof (update_scale_factor_frame rate
    (set_unscaled_sigma new (set_adapt_count (S (adapt_count self)) self)))
    as (_ & _ & Hchain).
  cbn in Hchain.
  destruct (_update_scale_factor _ _) as [[[]|e] s1]; [|discriminate].
  cbn in Hchain. cbn -[mat_scale]. intros [= <-]. cbn -[mat_scale].
  rewrite Hchain. repeat split; reflexivity.
Qed.

(** X9: [adapt_count] counts the calls of [adapt()]: after [n] calls in
    a row it has grown by [n], whichever of them returned or raised. *)
Theorem adapt_count_counts_calls (n : nat) (self : adaptive) :
  adapt_count (Nat.iter n (fun s => snd (adapt np s)) self)
  = (adapt_count self + n)%nat.
Proof.
  induction n as [|n IH]; [cbn; lia|].
  change (Nat.iter (S n) ?f ?x) with (f (Nat.iter n f x)). cbn beta.
  rewrite adapt_counts_every_call, IH. lia.
Qed.

(** X10: once [covar_scale_factor] is not below its maximum, no
    acceptance rate makes [_update_scale_factor] raise it further, and
    rates that are not below [force_acceptance_min] leave it as it is;
    likewise at the minimum.  The whole object stays the same. *)
Theorem scale_factor_saturates (rates : list float) (self : adaptive) :
  ((covar_scale_factor self <? covar_scale_factor_max self) = false
   ∧ Forall (fun rate => (rate <? force_acceptance_min self) = false) rates)
  ∨ ((covar_scale_factor_min self <? covar_scale_factor self) = false
     ∧ Forall (fun rate => (force_acceptance_max self <? rate) = false) rates) →
  foldl (fun s rate => snd (_update_scale_factor rate s)) self rates = self.
Proof.
  intros H. induction rates as [|rate rates IH]; [reflexivity|].
  assert (Hstep : _update_scale_factor rate self = (Ok tt, self)).
  { unfold _update_scale_factor. unfold_M. cbn.
    destruct H as [[Hmax Hr]|[Hmin Hr]]; apply Forall_cons in Hr as [Hr _].
    - rewrite Hmax, andb_false_r, Hr. reflexivity.
    - rewrite Hr, Hmin, andb_false_r. reflexivity. }
  cbn [foldl]. rewrite Hstep. cbn [snd]. apply IH.
  destruct H as [[Hmax Hr]|[Hmin Hr]]; apply Forall_cons in Hr as [_ Hr];
    [left|right]; done.
Qed.

End AdaptProperties.

(** Instances of the properties of the adaptive chain at the example
    chain. *)

Lemma set_adapt_params_rejects_positional_witness :
  AdaptiveMarkovChain.set_adapt_params [0.5] {["damping" := 0.75]}
    Fixture.adaptive_chain
  = (Raise (TypeError "keyword args only; try set_adapt_parameters(keyword = value)"),
     Fixture.adaptive_chain).
Proof.
  apply (set_adapt_params_rejects_positional [0.5] {["damping" := 0.75]}
           Fixture.adaptive_chain).
  discriminate.
Defined.

Lemma set_adapt_params_assigns_witness :
  AdaptiveMarkovChain.set_adapt_params []
    (<["damping" := 0.75]> {["covar_scale_factor_max" := 50]})
    Fixture.adaptive_chain
  = (Ok tt,
     AdaptiveMarkovChain.assign_params
       (<["damping" := 0.75]> {["covar_scale_factor_max" := 50]})
       Fixture.adaptive_chain).
Proof.
  apply (set_adapt_params_assigns
           (<["damping" := 0.75]> {["covar_scale_factor_max" := 50]})
           Fixture.adaptive_chain).
  intros k [v Hk].
  destruct (decide (k = "damping")) as [->|Hd];
    [unfold AdaptiveMarkovChain.adapt_keywords; rewrite !elem_of_cons; tauto|].
  destruct (decide (k = "covar_scale_factor_max")) as [->|Hm];
    [unfold AdaptiveMarkovChain.adapt_keywords; rewrite !elem_of_cons; tauto|].
  rewrite lookup_insert_ne, lookup_singleton_ne in Hk by done. discriminate.
Defined.

Lemma init_assigns_witness :
  ∃ s, AdaptiveMarkovChain.__init__ Fixture.chain_all_accepted
         {["covar_scale_factor" := 2]} = Ok s
       ∧ AdaptiveMarkovChain.adapt_count s = 0%nat
       ∧ AdaptiveMarkovChain.covar_scale_factor s = 2
       ∧ AdaptiveMarkovChain.damping s = 0.5
       ∧ AdaptiveMarkovChain.unscaled_sigma s = [[0.5]].
Proof.
  eexists. split.
  - apply (init_assigns Fixture.chain_all_accepted {["covar_scale_factor" := 2]}).
    intros k [v Hk].
    destruct (decide (k = "covar_scale_factor")) as [->|Hd];
      [unfold AdaptiveMarkovChain.adapt_keywords; rewrite !elem_of_cons; tauto|].
    rewrite lookup_singleton_ne in Hk by done. discriminate.
  - repeat split; vm_compute; reflexivity.
Defined.

Lemma adapt_after_empty_run_witness :
  ∃ s1, AdaptiveMarkovChain.inherited (run Fixture.lib Fixture.scripted_rand 0)
          Fixture.adaptive_chain = (Ok tt, s1)
        ∧ AdaptiveMarkovChain.adapt Fixture.lib s1
          = (Raise ZeroDivisionError,
             AdaptiveMarkovChain.set_adapt_count 1 s1).
Proof.
  pose (s1 := snd (AdaptiveMarkovChain.inherited
                     (run Fixture.lib Fixture.scripted_rand 0)
                     Fixture.adaptive_chain)).
  exists s1. split; [reflexivity|].
  exact (adapt_after_empty_run_raises Fixture.lib s1
           [History.mk_run [[0]; [2]] 2] 0 1 eq_refl eq_refl eq_refl).
Defined.

Lemma adapt_pushes_scaled_sigma_witness :
  ∃ s, AdaptiveMarkovChain.adapt Fixture.lib Fixture.adaptive_chain = (Ok tt, s)
       ∧ AdaptiveMarkovChain.covar_scale_factor s = 1.5
       ∧ AdaptiveMarkovChain.unscaled_sigma s = [[2]]
       ∧ MarkovChain.sigma (MarkovChain.proposal (AdaptiveMarkovChain.chain s))
         = [[3]].
Proof.
  pose (s := snd (AdaptiveMarkovChain.adapt Fixture.lib Fixture.adaptive_chain)).
  assert (H : AdaptiveMarkovChain.adapt Fixture.lib Fixture.adaptive_chain
              = (Ok tt, s)) by (vm_compute; reflexivity).
  exists s. split; [exact H|].
  split; [vm_compute; reflexivity|]. split; [vm_compute; reflexivity|].
  rewrite (proj1 (adapt_pushes_scaled_sigma Fixture.lib _ _ H)).
  vm_compute. reflexivity.
Defined.

Lemma scale_factor_saturates_witness :
  foldl (fun s rate => snd (AdaptiveMarkovChain._update_scale_factor rate s))
    (AdaptiveMarkovChain.set_covar_scale_factor 100 Fixture.adaptive_chain)
    [1; 0.5; 0.25]
  = AdaptiveMarkovChain.set_covar_scale_factor 100 Fixture.adaptive_chain.
Proof.
  apply (scale_factor_saturates [1; 0.5; 0.25]
           (AdaptiveMarkovChain.set_covar_scale_factor 100 Fixture.adaptive_chain)).
  left. split; [reflexivity|]. repeat constructor.
Defined.

(** ** Pruning and the input of the PMC update *)

Section PMCClaims.

Import PMC.

Variable density : vector → matrix → vector → float.
Variable unusable : float * vector * matrix → bool.

Lemma read_components_inv (cs : list nat) (h : gmap nat obj) :
  ∀ comps h', mapM read_component cs h = (Ok comps, h') →
    Forall (fun c => ∃ mu sigma, h !! c = Some (Component mu sigma)) cs.
Proof.
  induction cs as [|c cs IH]; intros comps h'; cbn [mapM]; unfold_M.
  - constructor.
  - unfold read_component at 1.
    destruct (h !! c) as [[mu sigma|]|] eqn:Hc; try discriminate.
    destruct (mapM read_component cs h) as [[rest|e] h1] eqn:Hrest;
      [|discriminate].
    intros _. constructor; [eauto|]. eapply IH. reflexivity.
Qed.

(** C7: in a call with latent labels and [mincount > 0], a component
    whose hard-label count is below [mincount] has weight exactly 0 in
    the mixture returned, and the component object at its place holds the
    mean and covariance of the input component; this is so with [rb] and
    without. *)
Theorem C7_pruned_component_keeps_prior (samples : list vector) (proposal : nat)
    (weights : option vector) (latent : list nat) (rb : bool) (mincount : nat)
    (h : gmap nat obj) (cs : list nat) (ws : vector) (k c : nat)
    (mu : vector) (sigma : matrix) :
  (0 < mincount)%nat →
  h !! proposal = Some (Mixture cs ws) →
  Forall (fun c => ∃ mu sigma, h !! c = Some (Component mu sigma)) cs →
  cs !! k = Some c →
  h !! c = Some (Component mu sigma) →
  (hard_count latent k < mincount)%nat →
  ∃ l' h' cs' ws' c',
    gaussian_pmc density unusable samples proposal weights (Some latent) rb mincount h
    = (Ok l', h')
    ∧ h' !! l' = Some (Mixture cs' ws')
    ∧ ws' !! k = Some 0
    ∧ cs' !! k = Some c'
    ∧ h' !! c' = Some (Component mu sigma).
Proof.
  intros Hmin Hprop Hcs Hk Hc Hcount.
  destruct (gaussian_pmc_returns density unusable samples proposal weights
              (Some latent) rb mincount h cs ws)
    as (comps & new_cs & l' & h' & Hread & Hcall & _ & Hlen & Hlen' & _ & Hmix & Hnew);
    eauto.
  assert (Hdead : pruned (Some latent) mincount k = true)
    by (cbn; apply bool_decide_eq_true_2, Hcount).
  assert (Hklt : (k < length comps)%nat)
    by (rewrite Hlen; eapply lookup_lt_Some, Hk).
  destruct (m_step_pruned density unusable samples comps ws
              (default (replicate (length samples) 1) weights)
              (Some latent) rb mincount k Hdead Hklt) as [Hw Hp].
  destruct (read_components_ok cs h Hcs) as (comps0 & Hread0 & _ & Hcomps).
  rewrite Hread in Hread0. injection Hread0 as <-.
  destruct (Hcomps k c Hk) as (mu0 & sigma0 & Hcomp & Hc0).
  rewrite Hc in Hc0. injection Hc0 as <- <-.
  assert (is_Some (new_cs !! k)) as [c' Hc'].
  { apply lookup_lt_is_Some. rewrite Hlen'. eapply lookup_lt_Some, Hk. }
  destruct (Hnew k c' Hc') as [_ Hobj].
  rewrite Hp, Hcomp in Hobj. cbn in Hobj.
  eexists l', h', new_cs, _, c'.
  split; [exact Hcall|]. split; [exact Hmix|]. split; [exact Hw|].
  split; [exact Hc'|exact Hobj].
Qed.

(** C8: whatever a call of [gaussian_pmc] does, every object of the
    store it was given is afterwards what it was before, so the input
    mixture, its weights and its components with their means and
    covariances are unchanged.  When the call returns, the mixture it
    returns and all its components are newly created objects; and it
    returns whenever the validation passes and the input is a mixture of
    components. *)
Theorem C8_gaussian_pmc_leaves_input (samples : list vector) (proposal : nat)
    (weights : option vector) (latent : option (list nat)) (rb : bool)
    (mincount : nat) (h h' : gmap nat obj) (r : res nat) :
  gaussian_pmc density unusable samples proposal weights latent rb mincount h
  = (r, h') →
  (∀ l o, h !! l = Some o → h' !! l = Some o)
  ∧ (∀ l', r = Ok l' →
       h !! l' = None
       ∧ ∃ cs' ws', h' !! l' = Some (Mixture cs' ws')
                    ∧ Forall (fun c => h !! c = None) cs')
  ∧ (valid_call h proposal latent rb mincount → ∃ l', r = Ok l').
Proof.
  intros Hcall.
  assert (Hsame : h' = h → (∀ l o, h !! l = Some o → h' !! l = Some o))
    by (intros ->; auto).
  destruct (decide (rb = true ∨ is_Some latent)) as [Hrb|Hrb].
  2: { assert (rb = false ∧ latent = None) as [-> ->].
       { destruct rb, latent; try (exfalso; apply Hrb; eauto; fail); done. }
       cbn in Hcall. injection Hcall as <- <-.
       split; [auto|]. split; [discriminate|].
       intros ([Hv|[? Hv]] & _); discriminate. }
  destruct (decide (mincount = 0%nat ∨ is_Some latent)) as [Hmin|Hmin].
  2: { assert (latent = None ∧ (0 < mincount)%nat) as [-> Hpos].
       { destruct latent; [exfalso; apply Hmin; eauto|]. split; [done|].
         destruct mincount; [exfalso; apply Hmin; eauto|lia]. }
       unfold gaussian_pmc in Hcall.
       rewrite (bool_decide_eq_true_2 _ Hpos) in Hcall.
       destruct rb; cbn in Hcall; injection Hcall as <- <-;
         (split; [auto|]; split; [discriminate|]);
         intros (_ & [Hv|[? Hv]] & _); try discriminate; lia. }
  destruct (h !! proposal) as [[|cs ws]|] eqn:Hprop.
  1,3: unfold gaussian_pmc in Hcall;
       destruct (negb rb && _); [injection Hcall as <- <-|];
       [|destruct (bool_decide (0 < mincount)%nat && _);
         [injection Hcall as <- <-|]];
       [..|unfold_M; unfold read_mixture in Hcall; rewrite Hprop in Hcall;
           injection Hcall as <- <-];
       (split; [auto|]; split; [discriminate|]);
       intros (_ & _ & cs0 & ws0 & Hm & _); congruence.
  destruct (mapM read_component cs h) as [[comps|e] h1] eqn:Hread.
  - pose proof (read_components_inv _ _ _ _ Hread) as Hcs.
    destruct (gaussian_pmc_returns density unusable samples proposal weights
                latent rb mincount h cs ws Hrb Hmin Hprop Hcs)
      as (comps0 & new_cs & l' & h2 & _ & Hret & Hsub & _ & _ & Hfresh & Hmix & Hnew).
    rewrite Hret in Hcall. injection Hcall as <- <-.
    split; [intros l o Hl; eapply lookup_weaken; eassumption|].
    split; [|eauto].
    intros l0 [= <-]. split; [assumption|].
    eexists _, _. split; [exact Hmix|].
    apply Forall_lookup. intros i c Hc. apply (Hnew i c Hc).
  - pose proof (read_components_frame _ _ _ _ Hread) as ->.
    assert (Hfail : r = Raise e ∧ h' = h).
    { unfold gaussian_pmc in Hcall.
      destruct (negb rb && _) eqn:Hv1.
      { exfalso. destruct Hrb as [->|Hl]; [discriminate|].
        rewrite (bool_decide_eq_true_2 _ Hl), andb_false_r in Hv1. discriminate. }
      destruct (bool_decide (0 < mincount)%nat && _) eqn:Hv2.
      { exfalso. destruct Hmin as [->|Hl]; [discriminate|].
        rewrite (bool_decide_eq_true_2 _ Hl), andb_false_r in Hv2. discriminate. }
      unfold_M. unfold read_mixture in Hcall. rewrite Hprop, Hread in Hcall.
      injection Hcall as <- <-. done. }
    destruct Hfail as [-> ->].
    split; [auto|]. split; [discriminate|].
    intros (_ & _ & cs0 & ws0 & Hm & Hcs0).
    rewrite Hprop in Hm. injection Hm as <- <-.
    destruct (read_components_ok cs h Hcs0) as (? & Hok & _). congruence.
Qed.

End PMCClaims.

(** The instance of C7 at [test_mincount_with_rb]: component 1 has four
    labels, [mincount] is 5 and [rb] is on. *)
Lemma C7_pruned_component_witness :
  ∃ l' h' cs' ws' c',
    PMC.gaussian_pmc Fixture.kernel_density Fixture.no_variance Fixture.pmc_samples
      2 None (Some Fixture.pmc_latent) true 5 Fixture.pmc_heap = (Ok l', h')
    ∧ h' !! l' = Some (PMC.Mixture cs' ws')
    ∧ ws' !! 1%nat = Some 0
    ∧ cs' !! 1%nat = Some c'
    ∧ h' !! c' = Some Fixture.gauss2.
Proof.
  eapply (C7_pruned_component_keeps_prior Fixture.kernel_density
            Fixture.no_variance Fixture.pmc_samples 2 None Fixture.pmc_latent
            true 5 Fixture.pmc_heap [0; 1]%nat [0.7; 0.3] 1 1).
  - lia.
  - reflexivity.
  - repeat constructor; eexists _, _; reflexivity.
  - reflexivity.
  - reflexivity.
  - vm_compute. lia.
Defined.

(** The instance of C8 at the same call. *)
Lemma C8_gaussian_pmc_witness :
  ∃ r h',
    PMC.gaussian_pmc Fixture.kernel_density Fixture.no_variance Fixture.pmc_samples
      2 None (Some Fixture.pmc_latent) true 5 Fixture.pmc_heap = (r, h')
    ∧ (∀ l o, Fixture.pmc_heap !! l = Some o → h' !! l = Some o)
    ∧ (∀ l', r = Ok l' →
         Fixture.pmc_heap !! l' = None
         ∧ ∃ cs' ws', h' !! l' = Some (PMC.Mixture cs' ws')
                      ∧ Forall (fun c => Fixture.pmc_heap !! c = None) cs')
    ∧ (PMC.valid_call Fixture.pmc_heap 2 (Some Fixture.pmc_latent) true 5 →
       ∃ l', r = Ok l').
Proof.
  eexists _, _. split; [apply surjective_pairing|].
  eapply (C8_gaussian_pmc_leaves_input Fixture.kernel_density Fixture.no_variance).
  apply surjective_pairing.
Defined.

(** The model against [mix_adapt/pmc_test.py]. *)

(** [test_mincount_no_rb]: the weights are [1., 0.] and the pruned
    component is the input component. *)
Example test_mincount_no_rb :
  ∃ comp0, Fixture.adapted_prop (Fixture.pmc_call Fixture.pmc_latent false 5)
           = Some ([1; 0], [Some comp0; Some Fixture.gauss2]).
Proof. eexists. vm_compute. reflexivity. Qed.

(** [test_non_rb]: weights, means and covariances are the expected ones
    within the tolerance of the test. *)
Example test_non_rb :
  ∃ ws mu1 sigma1 mu2 sigma2,
    Fixture.adapted_prop (Fixture.pmc_call Fixture.pmc_latent false 0)
    = Some (ws, [Some (PMC.Component mu1 sigma1); Some (PMC.Component mu2 sigma2)])
    ∧ Fixture.allclose_vector ws [0.6; 0.4] = true
    ∧ Fixture.allclose_vector mu1 [10.53906274; 1.19431695; 7.49161822] = true
    ∧ Fixture.allclose_vector mu2 [10.13066609; 1.12538331; 8.07133922] = true
    ∧ Fixture.allclose_matrix sigma1
        (map (map (fun x => x / 10))
           [[12.97533036; 9.79558822; 4.01021926];
            [9.79558822; 7.49336426; 2.38326823];
            [4.01021926; 2.38326823; 7.63180987]]) = true
    ∧ Fixture.allclose_matrix sigma2
        (map (map (fun x => x / 10))
           [[3.28106932; -3.40297223; -2.80076755];
            [-3.40297223; 4.90657639; 2.68280842];
            [-2.80076755; 2.68280842; 4.90740244]]) = true.
Proof.
  eexists _, _, _, _, _. split; [vm_compute; reflexivity|].
  repeat split; vm_compute; reflexivity.
Qed.

(** [test_invalid_cov] without [rb]: the component with a single sample
    gets weight 0 although [mincount] is 0. *)
Example test_invalid_cov_no_rb :
  ∃ comps, Fixture.adapted_prop (Fixture.pmc_call Fixture.pmc_latent_single false 0)
           = Some ([1; 0], comps).
Proof. eexists. vm_compute. reflexivity. Qed.

(** [test_mincount_and_copy]: component 1 has eight of the twenty labels;
    it survives [mincount = 8] and is pruned with [mincount = 9]. *)
Example test_mincount_threshold :
  let latent := replicate 12 0%nat ++ replicate 8 1%nat in
  PMC.hard_count latent 1 = 8%nat
  ∧ PMC.pruned (Some latent) 8 1 = false
  ∧ PMC.pruned (Some latent) 9 1 = true.
Proof. repeat split; vm_compute; reflexivity. Qed.
